(** * DisplayCAL EDID decoder: a shallow embedding of [DisplayCAL/edid.py]

    The Python module decodes a raw EDID buffer into a dict and keeps a
    process-wide cache of manufacturer names.  Python values are embedded as
    follows:

    - [bytes] is [list byte]; indexing a [bytes] object yields an [int];
    - [int] is [Z];
    - [float] is the primitive binary64 [float], the format of CPython floats;
    - [str] is a list of code points ([pystr]);
    - a [dict] with field-name keys is a [gmap string pyval];
    - an exception is the [Raise] branch of [res]. *)

From Stdlib Require Import ZArith List Lia QArith.
From Stdlib Require Import Floats.PrimFloat Floats.FloatOps Floats.SpecFloat.
From Stdlib Require Import Floats.FloatAxioms Uint63.
From Stdlib Require Import Strings.String Strings.Ascii Strings.Byte.
From stdpp Require Import base gmap strings list pretty.
Import ListNotations.

Open Scope Z_scope.

(** ** Python values *)

(** A [str]: the sequence of its Unicode code points. *)
Definition pystr := list N.

(** The [str] whose characters are those of an ASCII literal. *)
Definition str (s : string) : pystr :=
  map N_of_ascii (list_ascii_of_string s).

Inductive pyval :=
| PyNone
| PyBool (b : bool)
| PyInt (z : Z)
| PyFloat (f : float)
| PyStr (s : pystr)
| PyBytes (b : list byte).

Inductive pyexc :=
| IndexError
| ValueError
| TypeError
| StructError
| UnicodeDecodeError
| UnicodeEncodeError.

Inductive res (A : Type) :=
| Ok (a : A)
| Raise (e : pyexc).
Arguments Ok {A} a.
Arguments Raise {A} e.

Definition bind {A B} (m : res A) (k : A → res B) : res B :=
  match m with
  | Ok a => k a
  | Raise e => Raise e
  end.

Notation "x ←! m ;; k" := (bind m (λ x, k))
  (at level 100, m at next level, right associativity).

Definition returns {A} (m : res A) : Prop := ∃ a, m = Ok a.

#[global] Instance byte_eq_decision : EqDecision byte := Byte.byte_eq_dec.

(** The value of a byte, as Python's [bytes.__getitem__] gives it. *)
Definition byte_val (b : byte) : Z := Z.of_N (Byte.to_N b).

(** [b[i]] on [bytes]: an [int], or [IndexError]. Only non-negative literal
    indices occur in the module. *)
Definition getitem (b : list byte) (i : nat) : res Z :=
  match b !! i with
  | Some x => Ok (byte_val x)
  | None => Raise IndexError
  end.

(** [b[start:stop]] for [0 <= start <= stop]: slicing never raises. *)
Definition slice {A} (l : list A) (start stop : nat) : list A :=
  take (stop - start) (drop start l).

(** [int] to [float]; exact for the magnitudes that occur here (below 2^53). *)
Definition float_of_int (z : Z) : float :=
  if z <? 0 then PrimFloat.opp (PrimFloat.of_uint63 (Uint63.of_Z (- z)))
  else PrimFloat.of_uint63 (Uint63.of_Z z).

(** [math.pow(2, e)] for an integer [e]: the power of two itself, which
    binary64 represents exactly over its exponent range. *)
Definition math_pow2 (e : Z) : float := Z.ldexp 1%float e.

(** Python's [==] between the values of the module. Values of unrelated
    types are never equal: an [int] is not equal to a [bytes] or a [str]
    object, whatever they hold. *)
Definition py_eq (a b : pyval) : bool :=
  match a, b with
  | PyNone, PyNone => true
  | PyBool x, PyBool y => bool_decide (x = y)
  | PyBool x, PyInt y | PyInt y, PyBool x => (if x then 1 else 0) =? y
  | PyInt x, PyInt y => x =? y
  | PyInt x, PyFloat y | PyFloat y, PyInt x => PrimFloat.eqb (float_of_int x) y
  | PyBool x, PyFloat y | PyFloat y, PyBool x =>
      PrimFloat.eqb (if x then 1%float else 0%float) y
  | PyFloat x, PyFloat y => PrimFloat.eqb x y
  | PyStr x, PyStr y => bool_decide (x = y)
  | PyBytes x, PyBytes y => bool_decide (x = y)
  | _, _ => false
  end.

Definition py_ne (a b : pyval) : bool := negb (py_eq a b).

(** A decoded record: the dict [parse_edid] returns. *)
Abbreviation record := (gmap string pyval).

(** [d.update(e)]: the entries of [e] win. *)
Definition update (d e : record) : record := e ∪ d.

(** ** Field layout *)

Definition HEADER : nat * nat := (0, 8)%nat.
Definition MANUFACTURER_ID : nat * nat := (8, 10)%nat.
Definition PRODUCT_ID : nat * nat := (10, 12)%nat.
Definition SERIAL_32 : nat * nat := (12, 16)%nat.
Definition WEEK_OF_MANUFACTURE : nat := 16.
Definition YEAR_OF_MANUFACTURE : nat := 17.
Definition EDID_VERSION : nat := 18.
Definition EDID_REVISION : nat := 19.
Definition MAX_H_SIZE_CM : nat := 21.
Definition MAX_V_SIZE_CM : nat := 22.
Definition GAMMA : nat := 23.
Definition FEATURES : nat := 24.
Definition LO_RG_XY : nat := 25.
Definition LO_BW_XY : nat := 26.
Definition HI_R_X : nat := 27.
Definition HI_R_Y : nat := 28.
Definition HI_G_X : nat := 29.
Definition HI_G_Y : nat := 30.
Definition HI_B_X : nat := 31.
Definition HI_B_Y : nat := 32.
Definition HI_W_X : nat := 33.
Definition HI_W_Y : nat := 34.
Definition BLOCKS : list (nat * nat) :=
  [(54, 72); (72, 90); (90, 108); (108, 126)]%nat.
Definition BLOCK_TYPE : nat := 3.
Definition BLOCK_CONTENTS : nat * nat := (5, 18)%nat.
Definition BLOCK_TYPE_SERIAL_ASCII : list byte := [xff].
Definition BLOCK_TYPE_ASCII : list byte := [xfe].
Definition BLOCK_TYPE_MONITOR_NAME : list byte := [xfc].
Definition BLOCK_TYPE_COLOR_POINT : list byte := [xfb].
Definition BLOCK_TYPE_COLOR_MANAGEMENT_DATA : list byte := [xf9].
Definition EXTENSION_FLAG : nat := 126.
Definition CHECKSUM : nat := 127.
Definition BLOCK_DI_EXT : list byte := [x40].
Definition TRC : nat * nat := (81, 127)%nat.

(** ** Bit helpers and the fraction codec *)

Definition combine_hi_8lo (hi lo : Z) : Z := Z.lor (Z.shiftl hi 8) lo.

Definition edid_get_bit (value bit : Z) : Z :=
  Z.shiftr (Z.land value (Z.shiftl 1 bit)) bit.

Definition edid_get_bits (value begin_ end_ : Z) : Z :=
  let mask := Z.shiftl 1 (end_ - begin_ + 1) - 1 in
  Z.land (Z.shiftr value begin_) mask.

(** The loop of [edid_decode_fraction]: [result] starts at [0.0] and every
    [i] of [range(0, 10)] adds [edid_get_bit(high, i) * math.pow(2, i - 10)]. *)
Definition edid_decode_fraction (high low : Z) : float :=
  let high := Z.lor (Z.shiftl high 2) low in
  fold_left
    (λ result i,
      PrimFloat.add result
        (PrimFloat.mul (float_of_int (edid_get_bit high i)) (math_pow2 (i - 10))))
    (seqZ 0 10) 0%float.

(** ** String helpers of the Python runtime *)

(** [chr(n)]: a one-character [str], [ValueError] outside the Unicode range. *)
Definition chr (n : Z) : res pystr :=
  if (0 <=? n) && (n <=? 0x10FFFF) then Ok [Z.to_N n] else Raise ValueError.

(** [ord] of an ASCII character literal. *)
Definition ord (c : ascii) : Z := Z.of_N (N_of_ascii c).

(** The characters [str.strip()] and [str.split(None)] treat as whitespace. *)
Definition is_unicode_space (c : N) : bool :=
  ((9 <=? c) && (c <=? 13) || (28 <=? c) && (c <=? 32)
   || (c =? 0x85) || (c =? 0xA0) || (c =? 0x1680)
   || (0x2000 <=? c) && (c <=? 0x200A)
   || (c =? 0x2028) || (c =? 0x2029) || (c =? 0x202F)
   || (c =? 0x205F) || (c =? 0x3000))%N.

(** The whitespace of [bytes.rstrip()]: space, tab, LF, VT, FF and CR. *)
Definition is_ascii_space (b : byte) : bool :=
  let c := byte_val b in (c =? 32) || (9 <=? c) && (c <=? 13).

Fixpoint lstrip_by {A} (p : A → bool) (s : list A) : list A :=
  match s with
  | [] => []
  | c :: r => if p c then lstrip_by p r else s
  end.

Fixpoint rstrip_by {A} (p : A → bool) (s : list A) : list A :=
  match s with
  | [] => []
  | c :: r =>
      match rstrip_by p r with
      | [] => if p c then [] else [c]
      | r' => c :: r'
      end
  end.

(** [s.strip()] *)
Definition str_strip (s : pystr) : pystr :=
  rstrip_by is_unicode_space (lstrip_by is_unicode_space s).

(** [s.strip(chars)] *)
Definition str_strip_chars (chars s : pystr) : pystr :=
  let p := λ c, bool_decide (c ∈ chars) in
  rstrip_by p (lstrip_by p s).

(** [string.whitespace] *)
Definition string_whitespace : pystr := [32; 9; 10; 13; 11; 12]%N.

Fixpoint startswith (s prefix : pystr) : bool :=
  match prefix, s with
  | [], _ => true
  | p :: prefix, c :: s => (p =? c)%N && startswith s prefix
  | _ :: _, [] => false
  end.

Definition endswith (s suffix : pystr) : bool :=
  startswith (reverse s) (reverse suffix).

(** [s.split(sep)] for a one-character separator. *)
Fixpoint split_char (sep : N) (s : pystr) : list pystr :=
  match s with
  | [] => [[]]
  | c :: r =>
      if (c =? sep)%N then [] :: split_char sep r
      else match split_char sep r with
           | w :: ws => (c :: w) :: ws
           | [] => [[c]]
           end
  end.

(** [s.split(sep, 1)] for a one-character separator. *)
Fixpoint split_char_once (sep : N) (s : pystr) : list pystr :=
  match s with
  | [] => [[]]
  | c :: r =>
      if (c =? sep)%N then [[]; r]
      else match split_char_once sep r with
           | w :: ws => (c :: w) :: ws
           | [] => [[c]]
           end
  end.

(** The first word of [s]: the characters up to the next whitespace, and what
    follows them. *)
Fixpoint span_word (s : pystr) : pystr * pystr :=
  match s with
  | [] => ([], [])
  | c :: r =>
      if is_unicode_space c then ([], s)
      else let '(w, rest) := span_word r in (c :: w, rest)
  end.

(** [s.split(None, 1)]: leading whitespace is skipped, the first word is cut
    off, and what follows the whitespace after it is kept as it is. *)
Definition split_whitespace_once (s : pystr) : list pystr :=
  match lstrip_by is_unicode_space s with
  | [] => []
  | s1 =>
      let '(w, rest) := span_word s1 in
      match lstrip_by is_unicode_space rest with
      | [] => [w]
      | tail => [w; tail]
      end
  end.

(** Strict UTF-8 decoding, [bytes.decode("utf-8")]. *)
Definition is_cont (b : byte) : bool :=
  (0x80 <=? byte_val b) && (byte_val b <=? 0xBF).

Definition cont_bits (b : byte) : Z := Z.land (byte_val b) 0x3F.

Fixpoint utf8_decode (l : list byte) : res pystr :=
  match l with
  | [] => Ok []
  | b0 :: r0 =>
      let c0 := byte_val b0 in
      if c0 <? 0x80 then
        s ←! utf8_decode r0;; Ok (Z.to_N c0 :: s)
      else if (0xC2 <=? c0) && (c0 <=? 0xDF) then
        match r0 with
        | b1 :: r1 =>
            if is_cont b1 then
              s ←! utf8_decode r1;;
              Ok (Z.to_N (Z.lor (Z.shiftl (Z.land c0 0x1F) 6) (cont_bits b1)) :: s)
            else Raise UnicodeDecodeError
        | _ => Raise UnicodeDecodeError
        end
      else if (0xE0 <=? c0) && (c0 <=? 0xEF) then
        match r0 with
        | b1 :: b2 :: r2 =>
            let c1 := byte_val b1 in
            if is_cont b1 && is_cont b2
               && negb ((c0 =? 0xE0) && (c1 <? 0xA0))
               && negb ((c0 =? 0xED) && (0x9F <? c1)) then
              s ←! utf8_decode r2;;
              Ok (Z.to_N (Z.lor (Z.shiftl (Z.land c0 0x0F) 12)
                           (Z.lor (Z.shiftl (cont_bits b1) 6) (cont_bits b2))) :: s)
            else Raise UnicodeDecodeError
        | _ => Raise UnicodeDecodeError
        end
      else if (0xF0 <=? c0) && (c0 <=? 0xF4) then
        match r0 with
        | b1 :: b2 :: b3 :: r3 =>
            let c1 := byte_val b1 in
            if is_cont b1 && is_cont b2 && is_cont b3
               && negb ((c0 =? 0xF0) && (c1 <? 0x90))
               && negb ((c0 =? 0xF4) && (0x8F <? c1)) then
              s ←! utf8_decode r3;;
              Ok (Z.to_N (Z.lor (Z.shiftl (Z.land c0 0x07) 18)
                           (Z.lor (Z.shiftl (cont_bits b1) 12)
                              (Z.lor (Z.shiftl (cont_bits b2) 6) (cont_bits b3)))) :: s)
            else Raise UnicodeDecodeError
        | _ => Raise UnicodeDecodeError
        end
      else Raise UnicodeDecodeError
  end.

(** [s.encode("latin-1")]: one byte per character, [UnicodeEncodeError] for a
    character above U+00FF. *)
Fixpoint latin1_encode (s : pystr) : res (list byte) :=
  match s with
  | [] => Ok []
  | c :: r =>
      match Byte.of_N c with
      | Some b => l ←! latin1_encode r;; Ok (b :: l)
      | None => Raise UnicodeEncodeError
      end
  end.

(** ** String sanitizer *)

(** [desc.replace(old, new)] for one-byte [old] and [new]. *)
Definition bytes_replace (desc : list byte) (old new : byte) : list byte :=
  map (λ b, if bool_decide (b = old) then new else b) desc.

(** [desc.find(x)] for a one-byte [x]: the first index, or [-1]. *)
Fixpoint bytes_find (desc : list byte) (x : byte) : Z :=
  match desc with
  | [] => -1
  | b :: r =>
      if bool_decide (b = x) then 0
      else let k := bytes_find r x in if k =? -1 then -1 else k + 1
  end.

Definition non_printable (c : Z) : bool := (c <? 32) || (126 <? c).

(** One turn of the loop over [range(len(desc))]: the byte at [i] is
    overwritten with NUL and counted when it is not printable. *)
Definition replace_step (st : res (list byte * Z)) (i : nat) : res (list byte * Z) :=
  s ←! st;;
  let '(desc, non_printable_count) := s in
  c ←! getitem desc i;;
  if non_printable c then Ok (<[i:=x00]> desc, non_printable_count + 1)
  else Ok (desc, non_printable_count).

Definition edid_parse_string (desc : list byte) : res (option (list byte)) :=
  let desc := bytes_replace (bytes_replace (take 13 desc) x0a x00) x0d x00 in
  let null_index := bytes_find desc x00 in
  let desc := if negb (null_index =? -1) then take (Z.to_nat null_index) desc else desc in
  let desc := rstrip_by is_ascii_space desc in
  s ←! fold_left replace_step (seq 0 (length desc)) (Ok (desc, 0));;
  let '(desc, non_printable_count) := s in
  if non_printable_count <=? 4 then Ok (Some (bytes_replace desc x00 x2d))
  else Ok None.

(** ** Manufacturer id *)

Definition parse_manufacturer_id (block : list byte) : res pystr :=
  hi ←! getitem block 0;;
  lo ←! getitem block 1;;
  let h := combine_hi_8lo hi lo in
  manufacturer_id ←!
    fold_left
      (λ acc shift,
        l ←! acc;;
        c ←! chr (Z.land (Z.shiftr h shift) 0x1F + ord "A" - 1);;
        Ok (l ++ [c]))
      [10; 5; 0] (Ok []);;
  Ok (str_strip (concat manufacturer_id)).

(** ** Manufacturer database *)

(** Truth value of an optional [str]: [None] and the empty string are false. *)
Definition truthy (s : option pystr) : bool :=
  match s with
  | Some (_ :: _) => true
  | _ => false
  end.

Definition parse_hwdb_line (line : pystr) : res (option pystr * option pystr) :=
  if startswith (str_strip line) (str "acpi:") then
    match split_char 58 line !! 1%nat with
    | Some field => Ok (Some (take 3 field), None)
    | None => Raise IndexError
    end
  else if startswith (str_strip line) (str "ID_VENDOR_FROM_DATABASE") then
    match split_char_once 61 line !! 1%nat with
    | Some field => Ok (None, Some (str_strip field))
    | None => Raise IndexError
    end
  else Ok (None, None).

(** The unpacking [id, name = ...] raises [ValueError] unless the split has
    exactly two parts; the handler then yields [(None, None)]. *)
Definition parse_pnpid_line (line : pystr) : res (option pystr * option pystr) :=
  match split_whitespace_once (str_strip_chars (string_whitespace ++ [160%N]) line) with
  | [id; name] => Ok (Some id, Some name)
  | _ => Ok (None, None)
  end.

(** [pnpidcache], the module-level dict. *)
Abbreviation cache := (gmap pystr pystr).

(** The guarded insertion of the loop body. *)
Definition cache_add (id name : option pystr) (pnpidcache : cache) : cache :=
  match id, name with
  | Some i, Some n =>
      if truthy id && truthy name && negb (bool_decide (i ∈ dom pnpidcache))
      then <[i:=n]> pnpidcache else pnpidcache
  | _, _ => pnpidcache
  end.

(** [pnp_ids] is the sequence of lines of the open file. The cache is
    threaded through; an exception leaves what was inserted before it. *)
Fixpoint parse_pnpid_file (pnp_ids : list pystr) (path : pystr) (pnpidcache : cache)
  : res unit * cache :=
  match pnp_ids with
  | [] => (Ok tt, pnpidcache)
  | line :: rest =>
      match (if endswith path (str "hwdb") then parse_hwdb_line line
             else parse_pnpid_line line) with
      | Ok (id, name) => parse_pnpid_file rest path (cache_add id name pnpidcache)
      | Raise e => (Raise e, pnpidcache)
      end
  end.

(** What the module reads from its host: the file system, the platform name,
    the directory of the bundled [pnp.ids] ([constants.pydir], defined outside
    this module) and the MD5 digest of [hashlib]. *)
Record Host := {
  isfile : pystr → bool;
  (** the lines of a file, or [None] when opening it raises [IOError] *)
  open_lines : pystr → option (list pystr);
  platform : pystr;
  pydir_pnp_ids : pystr;
  md5_hexdigest : list byte → pystr;
}.

Section Database.
Variable host : Host.

Definition get_pnpid_paths : list pystr :=
  let paths :=
    [ str "/usr/lib/udev/hwdb.d/20-acpi-vendor.hwdb";
      str "/usr/share/hwdata/pnp.ids";
      str "/usr/share/misc/pnp.ids";
      str "/usr/share/libgnome-desktop/pnp.ids" ] in
  if bool_decide (platform host ∈ [str "darwin"; str "win32"])
  then paths ++ [pydir_pnp_ids host] else paths.

(** The loop of [load_pnpidcache]: the first path that is a file and opens
    is parsed and ends the loop; an [IOError] moves on to the next path. *)
Fixpoint load_from (paths : list pystr) (pnpidcache : cache) : res unit * cache :=
  match paths with
  | [] => (Ok tt, pnpidcache)
  | path :: rest =>
      if isfile host path then
        match open_lines host path with
        | Some pnp_ids => parse_pnpid_file pnp_ids path pnpidcache
        | None => load_from rest pnpidcache
        end
      else load_from rest pnpidcache
  end.

Definition load_pnpidcache (pnpidcache : cache) : res unit * cache :=
  load_from get_pnpid_paths pnpidcache.

Definition get_manufacturer_name (manufacturer_id : pystr) (pnpidcache : cache)
  : res (option pystr) * cache :=
  let '(r, pnpidcache) :=
    if bool_decide (pnpidcache = ∅) then load_pnpidcache pnpidcache
    else (Ok tt, pnpidcache) in
  (_ ←! r;; Ok (pnpidcache !! manufacturer_id), pnpidcache).
End Database.

(** ** Block parsers *)

(** [struct.unpack("<H", b)[0]] and [struct.unpack("<I", b)[0]]: the buffer
    must have exactly the size of the format. *)
Definition unpack_H (b : list byte) : res Z :=
  match b with
  | [b0; b1] => Ok (byte_val b0 + 256 * byte_val b1)
  | _ => Raise StructError
  end.

Definition unpack_I (b : list byte) : res Z :=
  match b with
  | [b0; b1; b2; b3] =>
      Ok (byte_val b0 + 256 * byte_val b1 + 65536 * byte_val b2
          + 16777216 * byte_val b3)
  | _ => Raise StructError
  end.

(** [x / 100.0 + 1] on an [int] [x]. *)
Definition gamma_of (x : Z) : float :=
  PrimFloat.add (PrimFloat.div (float_of_int x) 100%float) (float_of_int 1).

Definition parse_edid_basic_display_parameters (edid : list byte) : res record :=
  product_id ←! unpack_H (slice edid (fst PRODUCT_ID) (snd PRODUCT_ID));;
  serial_32 ←! unpack_I (slice edid (fst SERIAL_32) (snd SERIAL_32));;
  week ←! getitem edid WEEK_OF_MANUFACTURE;;
  year ←! getitem edid YEAR_OF_MANUFACTURE;;
  version ←! getitem edid EDID_VERSION;;
  revision ←! getitem edid EDID_REVISION;;
  max_h ←! getitem edid MAX_H_SIZE_CM;;
  max_v ←! getitem edid MAX_V_SIZE_CM;;
  let result : record :=
    <["max_v_size_cm" := PyInt max_v]>
    (<["max_h_size_cm" := PyInt max_h]>
    (<["edid_revision" := PyInt revision]>
    (<["edid_version" := PyInt version]>
    (<["year_of_manufacture" := PyInt (year + 1990)]>
    (<["week_of_manufacture" := PyInt week]>
    (<["serial_32" := PyInt serial_32]>
    (<["product_id" := PyInt product_id]> ∅))))))) in
  g ←! getitem edid GAMMA;;
  result ←!
    (if py_ne (PyInt g) (PyBytes [xff]) then
       g' ←! getitem edid GAMMA;;
       Ok (<["gamma" := PyFloat (gamma_of g')]> result)
     else Ok result);;
  features ←! getitem edid FEATURES;;
  Ok (<["features" := PyInt features]> result).

(** One chromaticity entry: [edid_decode_fraction(edid[hi], edid_get_bits(edid[lo], b, e))]. *)
Definition chroma (edid : list byte) (hi lo : nat) (b e : Z) : res pyval :=
  h ←! getitem edid hi;;
  l ←! getitem edid lo;;
  Ok (PyFloat (edid_decode_fraction h (edid_get_bits l b e))).

Definition parse_edid_chromaticity_coordinates (edid : list byte) : res record :=
  red_x ←! chroma edid HI_R_X LO_RG_XY 6 7;;
  red_y ←! chroma edid HI_R_Y LO_RG_XY 4 5;;
  green_x ←! chroma edid HI_G_X LO_RG_XY 2 3;;
  green_y ←! chroma edid HI_G_Y LO_RG_XY 0 1;;
  blue_x ←! chroma edid HI_B_X LO_BW_XY 6 7;;
  blue_y ←! chroma edid HI_B_Y LO_BW_XY 4 5;;
  white_x ←! chroma edid HI_W_X LO_BW_XY 2 3;;
  white_y ←! chroma edid HI_W_Y LO_BW_XY 0 1;;
  Ok (<["white_y" := white_y]> (<["white_x" := white_x]>
     (<["blue_y" := blue_y]> (<["blue_x" := blue_x]>
     (<["green_y" := green_y]> (<["green_x" := green_x]>
     (<["red_y" := red_y]> (<["red_x" := red_x]> (∅ : record))))))))).

(** [result[key] = v] unless [key in result]. *)
Definition set_default (key : string) (v : pyval) (result : record) : record :=
  match result !! key with
  | None => <[key := v]> result
  | Some _ => result
  end.

(** One turn of the loop [for i in (5, 10)] of [parse_color_point_data]. The
    guard compares the [int] [block[i]] with the [float] [i / 5]. *)
Definition color_point_step (block : list byte) (acc : res record) (i : nat)
  : res record :=
  result ←! acc;;
  index ←! getitem block i;;
  if PrimFloat.ltb (PrimFloat.div (float_of_int (Z.of_nat i)) (float_of_int 5))
       (float_of_int index) then
    hi_x ←! getitem block (i + 2);;
    lo_x ←! getitem block (i + 1);;
    let white_x := PyFloat (edid_decode_fraction hi_x (edid_get_bits lo_x 2 3)) in
    index_x ←! getitem block i;;
    let result := <["white_x_" +:+ pretty index_x := white_x]> result in
    let result := set_default "white_x" white_x result in
    hi_y ←! getitem block (i + 3);;
    lo_y ←! getitem block (i + 1);;
    let white_y := PyFloat (edid_decode_fraction hi_y (edid_get_bits lo_y 0 1)) in
    index_y ←! getitem block i;;
    let result := <["white_y_" +:+ pretty index_y := white_y]> result in
    let result := set_default "white_y" white_y result in
    g ←! getitem block (i + 4);;
    if py_ne (PyInt g) (PyStr [255%N]) then
      g' ←! getitem block (i + 4);;
      let gamma := PyFloat (gamma_of g') in
      index_g ←! getitem block i;;
      let result := <["gamma_" +:+ pretty index_g := gamma]> result in
      Ok (set_default "gamma" gamma result)
    else Ok result
  else Ok result.

Definition parse_color_point_data (block : list byte) : res record :=
  fold_left (color_point_step block) [5; 10]%nat (Ok ∅).

(** The dict [text_types], keyed by one-byte [bytes] objects. *)
Definition text_types : list (list byte * string) :=
  [ (BLOCK_TYPE_SERIAL_ASCII, "serial_ascii");
    (BLOCK_TYPE_ASCII, "ascii");
    (BLOCK_TYPE_MONITOR_NAME, "monitor_name") ].

Definition text_types_get (key : list byte) : option string :=
  snd <$> find (λ kv, bool_decide (fst kv = key)) text_types.

(** One turn of the loop [for start, stop in BLOCKS]. *)
Definition descriptor_step (edid : list byte) (acc : res record) (bounds : nat * nat)
  : res record :=
  result ←! acc;;
  let block := slice edid (fst bounds) (snd bounds) in
  if py_ne (PyBytes (take BLOCK_TYPE block)) (PyBytes [x00; x00; x00]) then
    Ok result
  else
    match text_types_get (slice block BLOCK_TYPE (BLOCK_TYPE + 1)) with
    | Some text_type =>
        desc ←! edid_parse_string
                  (slice block (fst BLOCK_CONTENTS) (snd BLOCK_CONTENTS));;
        match desc with
        | Some d => s ←! utf8_decode d;; Ok (<[text_type := PyStr s]> result)
        | None => Ok result
        end
    | None =>
        t ←! getitem block BLOCK_TYPE;;
        if py_eq (PyInt t) (PyBytes BLOCK_TYPE_COLOR_POINT) then
          cp ←! parse_color_point_data block;;
          Ok (update result cp)
        else
          t' ←! getitem block BLOCK_TYPE;;
          if py_eq (PyInt t') (PyBytes BLOCK_TYPE_COLOR_MANAGEMENT_DATA) then
            Ok (<["color_management_data" :=
                    PyBytes (slice block (fst BLOCK_CONTENTS) (snd BLOCK_CONTENTS))]>
                  result)
          else Ok result
    end.

Definition parse_edid_descriptor_blocks (edid : list byte) : res record :=
  fold_left (descriptor_step edid) BLOCKS (Ok ∅).

(** [sum(char for char in edid)] *)
Definition byte_sum (edid : list byte) : Z :=
  fold_left (λ acc b, acc + byte_val b) edid 0.

(** The loop [while block: ...; block = block[128:]]. Every turn removes a
    page from a non-empty [block], so [length block] turns are enough. *)
Fixpoint walk_extension_blocks (turns : nat) (block : list byte) : res unit :=
  match turns with
  | O => Ok tt
  | S turns =>
      if bool_decide (block = []) then Ok tt
      else
        tag ←! getitem block 0;;
        _ ←! (if py_eq (PyInt tag) (PyBytes BLOCK_DI_EXT) then
                trc ←! getitem block (fst TRC);;
                Ok tt
              else Ok tt);;
        walk_extension_blocks turns (drop 128 block)
  end.

Definition parse_edid_extension_blocks (edid : list byte) : res record :=
  ext_flag ←! getitem edid EXTENSION_FLAG;;
  checksum ←! getitem edid CHECKSUM;;
  let result : record :=
    <["checksum_valid" := PyBool (byte_sum edid mod 256 =? 0)]>
    (<["checksum" := PyInt checksum]>
    (<["ext_flag" := PyInt ext_flag]> ∅)) in
  _ ←! (if (128 <? Z.of_nat (length edid)) && (0 <? ext_flag) then
          walk_extension_blocks (length (drop 128 edid)) (drop 128 edid)
        else Ok tt);;
  Ok result.

(** ** Encoding repair and the decoder *)

(** [len(edid)] *)
Definition py_len (edid : pyval) : res Z :=
  match edid with
  | PyBytes b => Ok (Z.of_nat (length b))
  | PyStr s => Ok (Z.of_nat (length s))
  | _ => Raise TypeError
  end.

(** [b"\xc2" in edid or b"\xc3" in edid] needs a [bytes] object on the right:
    a [str] raises [TypeError]. *)
Definition fix_edid_encoding (edid : pyval) : res pyval :=
  match edid with
  | PyBytes b =>
      if bool_decide (xc2 ∈ b) || bool_decide (xc3 ∈ b) then
        s ←! utf8_decode b;;
        b' ←! latin1_encode s;;
        Ok (PyBytes b')
      else Ok edid
  | _ => Raise TypeError
  end.

Definition ensure_bytes (edid : pyval) : res pyval :=
  match edid with
  | PyStr s => b ←! latin1_encode s;; Ok (PyBytes b)
  | _ => Ok edid
  end.

(** The first two statements of [parse_edid]: the buffer the block parsers
    receive. *)
Definition normalize (edid : pyval) : res (list byte) :=
  n ←! py_len edid;;
  edid ←! (if negb (bool_decide (n ∈ [128; 256; 384])) then fix_edid_encoding edid
           else Ok edid);;
  edid ←! ensure_bytes edid;;
  match edid with
  | PyBytes b => Ok b
  | _ => Raise TypeError
  end.

Section Decoder.
Variable host : Host.

Definition parse_edid_header (edid : list byte) (pnpidcache : cache)
  : res record * cache :=
  match parse_manufacturer_id
          (slice edid (fst MANUFACTURER_ID) (snd MANUFACTURER_ID)) with
  | Raise e => (Raise e, pnpidcache)
  | Ok manufacturer_id =>
      let result : record :=
        <["manufacturer_id" := PyStr manufacturer_id]>
        (<["header" := PyBytes (slice edid (fst HEADER) (snd HEADER))]>
        (<["hash" := PyStr (md5_hexdigest host edid)]>
        (<["edid" := PyBytes edid]> ∅))) in
      let '(r, pnpidcache) := get_manufacturer_name host manufacturer_id pnpidcache in
      (manufacturer ←! r;;
       Ok (if truthy manufacturer
           then <["manufacturer" := PyStr (default [] manufacturer)]> result
           else result),
       pnpidcache)
  end.

Definition parse_edid (edid : pyval) (pnpidcache : cache) : res record * cache :=
  match normalize edid with
  | Raise e => (Raise e, pnpidcache)
  | Ok edid =>
      let '(r, pnpidcache) := parse_edid_header edid pnpidcache in
      (result ←! r;;
       basic ←! parse_edid_basic_display_parameters edid;;
       let result := update result basic in
       chromaticity ←! parse_edid_chromaticity_coordinates edid;;
       let result := update result chromaticity in
       descriptors ←! parse_edid_descriptor_blocks edid;;
       let result := update result descriptors in
       extension ←! parse_edid_extension_blocks edid;;
       Ok (update result extension),
       pnpidcache)
  end.

(** [get_edid] once the platform has delivered [edid] ([None] when it has
    none): shorter buffers are not parsed. *)
Definition get_edid_from (edid : option pyval) (pnpidcache : cache)
  : res record * cache :=
  match edid with
  | None => (Ok ∅, pnpidcache)
  | Some e =>
      match py_len e with
      | Raise x => (Raise x, pnpidcache)
      | Ok n =>
          if (0 <? n) && (128 <=? n) then parse_edid e pnpidcache
          else (Ok ∅, pnpidcache)
      end
  end.
End Decoder.

(** A host without any database file, for closed examples. *)
Definition bare_host : Host :=
  {| isfile := λ _, false;
     open_lines := λ _, None;
     platform := str "linux";
     pydir_pnp_ids := str "pnp.ids";
     md5_hexdigest := λ _, [] |}.

(** A buffer from a list of byte values. *)
Definition bytes_of (l : list N) : list byte :=
  omap Byte.of_N l.

(** ** Reference notions the properties are stated with *)

(** The rational a finite float stands for. *)
Definition float_exact (f : float) : option Q :=
  match Prim2SF f with
  | S754_zero _ => Some 0%Q
  | S754_finite sign m e =>
      Some ((if sign then -1 else 1) * inject_Z (Z.pos m) * Qpower 2 e)%Q
  | _ => None
  end.

(** The weighted sum of the ten low bits of [v], bit [i] weighing [2^(i-10)],
    over the rationals. *)
Definition bit_weighted_sum (v : Z) : Q :=
  fold_right Qplus 0%Q
    (map (λ i, ((if Z.testbit v i then 1 else 0) * Qpower 2 (i - 10))%Q)
       (seqZ 0 10)).

(** The direct division [((high << 2) | low) / 1024]. *)
Definition fraction_by_division (high low : Z) : float :=
  PrimFloat.div (float_of_int (Z.lor (Z.shiftl high 2) low)) (float_of_int 1024).

(** Every pair of a byte and a two-bit value. *)
Definition fraction_inputs : list (Z * Z) :=
  list_prod (seqZ 0 256) (seqZ 0 4).

(** The facts about one input of the codec, as a test that can be run. *)
Definition fraction_exact_check (p : Z * Z) : bool :=
  let v := Z.lor (Z.shiftl (fst p) 2) (snd p) in
  match float_exact (edid_decode_fraction (fst p) (snd p)) with
  | Some q =>
      Qeq_bool q (bit_weighted_sum v) && Qeq_bool q (v # 1024)
      && Qle_bool 0 q && negb (Qle_bool 1 q)
      && PrimFloat.leb 0 (edid_decode_fraction (fst p) (snd p))
      && PrimFloat.ltb (edid_decode_fraction (fst p) (snd p)) 1
  | None => false
  end.

(** A capital letter, [A] to [Z]. *)
Definition capital_letter (c : N) : Prop := (65 ≤ c ≤ 90)%N.

(** The 5-bit field of the packed manufacturer id at [shift]. *)
Definition id_field (b0 b1 : byte) (shift : Z) : Z :=
  Z.land (Z.shiftr (combine_hi_8lo (byte_val b0) (byte_val b1)) shift) 0x1F.

(** What [edid_parse_string] keeps of its argument before it looks for
    non-printable bytes: at most 13 bytes, cut at the first NUL, LF or CR,
    without trailing whitespace. *)
Definition examined (desc : list byte) : list byte :=
  let desc := bytes_replace (bytes_replace (take 13 desc) x0a x00) x0d x00 in
  let null_index := bytes_find desc x00 in
  rstrip_by is_ascii_space
    (if negb (null_index =? -1) then take (Z.to_nat null_index) desc else desc).

Definition non_printable_byte (b : byte) : bool := non_printable (byte_val b).

Definition printable_byte (b : byte) : Prop := 32 ≤ byte_val b ≤ 126.

(** How many bytes of [l] are not printable. *)
Definition count_non_printable (l : list byte) : Z :=
  Z.of_nat (length (List.filter non_printable_byte l)).

(** A byte after the replacement: itself when printable, a NUL otherwise, and
    once the NULs are turned into dashes. *)
Definition blank_out (b : byte) : byte := if non_printable_byte b then x00 else b.
Definition dash_out (b : byte) : byte := if non_printable_byte b then x2d else b.

(** The entry a line of a database file contributes: a code and a name that
    are both present and not empty. *)
Definition supplied (path line : pystr) : option (pystr * pystr) :=
  match (if endswith path (str "hwdb") then parse_hwdb_line line
         else parse_pnpid_line line) with
  | Ok (Some id, Some name) =>
      if truthy (Some id) && truthy (Some name) then Some (id, name) else None
  | _ => None
  end.

(** The name of the first entry for [code]. *)
Fixpoint first_name (entries : list (pystr * pystr)) (code : pystr) : option pystr :=
  match entries with
  | [] => None
  | (id, name) :: rest =>
      if bool_decide (id = code) then Some name else first_name rest code
  end.

(** The sum of the byte values of a buffer, by recursion on the buffer: what
    "the sum of every byte" means, apart from the decoder. *)
Fixpoint sum_of_bytes (b : list byte) : Z :=
  match b with
  | [] => 0
  | x :: rest => byte_val x + sum_of_bytes rest
  end.

(** The lookup of a manufacturer name does not fail: the cache is already
    populated, or loading it raises nothing. *)
Definition database_loads (host : Host) (pnpidcache : cache) : Prop :=
  pnpidcache ≠ ∅ ∨ fst (load_pnpidcache host pnpidcache) = Ok tt.

(** The value at index [i] of a buffer that is long enough. *)
Definition byte_at (b : list byte) (i : nat) : Z := byte_val (default x00 (b !! i)).

(** The entry of a returned record under [key]; an exception stays one. *)
Definition field (m : res record) (key : string) : res (option pyval) :=
  match m with
  | Ok r => Ok (r !! key)
  | Raise e => Raise e
  end.

(** ** Sample buffers *)

(** A base block of zeros whose gamma byte is [0xFF]. *)
Definition gamma_ff_edid : list byte :=
  replicate 23 x00 ++ [xff] ++ replicate 104 x00.

(** A base block of 127 bytes [0x01] closed by the byte [0x81]: its bytes sum
    to 256. *)
Definition valid_checksum_edid : list byte := replicate 127 x01 ++ [x81].

(** A base block whose first descriptor slot is a color-point descriptor with
    white point 2 at slot offset 5 and white point 3 at slot offset 10. *)
Definition color_point_slot : list byte :=
  [x00; x00; x00; xfb; x00;
   x02; x05; x80; x40; x78;
   x03; x0a; x50; x54; x78;
   x0a; x20; x20].

Definition color_point_edid : list byte :=
  replicate 54 x00 ++ color_point_slot ++ replicate 56 x00.

(** Two database files in the [pnp.ids] format that disagree on [SAM]. *)
Definition pnp_ids_first : list pystr :=
  [ str "NEC NEC Corporation";
    str "SAM Samsung Electric Company";
    str "SAM Another Name" ].

Definition pnp_ids_second : list pystr :=
  [ str "SAM Yet Another Name";
    str "DEL Dell Inc." ].

Definition pnp_ids_path : pystr := str "/usr/share/hwdata/pnp.ids".

(** ** Notions for the further properties *)

(** The byte of a value in [0, 255]. *)
Definition byte_of_Z (z : Z) : byte := default x00 (Byte.of_N (Z.to_N z)).

(** The two bytes that pack three 5-bit fields, the first field highest. *)
Definition pack_id (f1 f2 f3 : Z) : list byte :=
  let h := Z.lor (Z.lor (Z.shiftl f1 10) (Z.shiftl f2 5)) f3 in
  [byte_of_Z (Z.shiftr h 8); byte_of_Z (Z.land h 0xFF)].

(** The same with the unused top bit of the 16-bit value set. *)
Definition pack_id_top (f1 f2 f3 : Z) : list byte :=
  let h := Z.lor (Z.shiftl 1 15) (Z.lor (Z.lor (Z.shiftl f1 10) (Z.shiftl f2 5)) f3) in
  [byte_of_Z (Z.shiftr h 8); byte_of_Z (Z.land h 0xFF)].

Definition five_bit_triples : list (Z * (Z * Z)) :=
  list_prod (seqZ 0 32) (list_prod (seqZ 0 32) (seqZ 0 32)).

Definition unpack_check (t : Z * (Z * Z)) : bool :=
  let '(f1, (f2, f3)) := t in
  let expected := Ok [Z.to_N (f1 + 64); Z.to_N (f2 + 64); Z.to_N (f3 + 64)] in
  match parse_manufacturer_id (pack_id f1 f2 f3),
        parse_manufacturer_id (pack_id_top f1 f2 f3) with
  | Ok s, Ok s' =>
      bool_decide (s = [Z.to_N (f1 + 64); Z.to_N (f2 + 64); Z.to_N (f3 + 64)])
      && bool_decide (s' = s)
  | _, _ => false
  end.

(** A database file in the hwdb format. *)
Definition hwdb_path : pystr := str "/usr/lib/udev/hwdb.d/20-acpi-vendor.hwdb".

Definition hwdb_lines : list pystr :=
  [ str "acpi:SAM*:";
    str " ID_VENDOR_FROM_DATABASE=Samsung Electric Company" ].

(** Whether a path can be parsed: it is a file and opens. *)
Definition readable (host : Host) (path : pystr) : bool :=
  isfile host path && bool_decide (is_Some (open_lines host path)).

(** A host whose only file is the [pnp.ids] of hwdata. *)
Definition hwdata_host : Host :=
  {| isfile := λ p, bool_decide (p = pnp_ids_path);
     open_lines := λ p, if bool_decide (p = pnp_ids_path) then Some pnp_ids_first else None;
     platform := str "linux";
     pydir_pnp_ids := str "pnp.ids";
     md5_hexdigest := λ _, [] |}.

(** The dicts of the block parsers in closed form, for a buffer that holds a
    full base block. *)
Definition basic_record (edid : list byte) : record :=
  <["features" := PyInt (byte_at edid FEATURES)]>
  (<["gamma" := PyFloat (gamma_of (byte_at edid GAMMA))]>
  (<["max_v_size_cm" := PyInt (byte_at edid MAX_V_SIZE_CM)]>
  (<["max_h_size_cm" := PyInt (byte_at edid MAX_H_SIZE_CM)]>
  (<["edid_revision" := PyInt (byte_at edid EDID_REVISION)]>
  (<["edid_version" := PyInt (byte_at edid EDID_VERSION)]>
  (<["year_of_manufacture" := PyInt (byte_at edid YEAR_OF_MANUFACTURE + 1990)]>
  (<["week_of_manufacture" := PyInt (byte_at edid WEEK_OF_MANUFACTURE)]>
  (<["serial_32" :=
       PyInt (byte_at edid 12 + 256 * byte_at edid 13 + 65536 * byte_at edid 14
              + 16777216 * byte_at edid 15)]>
  (<["product_id" := PyInt (byte_at edid 10 + 256 * byte_at edid 11)]> ∅))))))))).

(** One chromaticity value: the high byte at [hi] and the bits [b..e] of the
    byte at [lo]. *)
Definition chroma_value (edid : list byte) (hi lo : nat) (b e : Z) : float :=
  edid_decode_fraction (byte_at edid hi) (edid_get_bits (byte_at edid lo) b e).

Definition chroma_record (edid : list byte) : record :=
  <["white_y" := PyFloat (chroma_value edid HI_W_Y LO_BW_XY 0 1)]>
  (<["white_x" := PyFloat (chroma_value edid HI_W_X LO_BW_XY 2 3)]>
  (<["blue_y" := PyFloat (chroma_value edid HI_B_Y LO_BW_XY 4 5)]>
  (<["blue_x" := PyFloat (chroma_value edid HI_B_X LO_BW_XY 6 7)]>
  (<["green_y" := PyFloat (chroma_value edid HI_G_Y LO_RG_XY 0 1)]>
  (<["green_x" := PyFloat (chroma_value edid HI_G_X LO_RG_XY 2 3)]>
  (<["red_y" := PyFloat (chroma_value edid HI_R_Y LO_RG_XY 4 5)]>
  (<["red_x" := PyFloat (chroma_value edid HI_R_X LO_RG_XY 6 7)]> ∅))))))).

(** The chromaticity entries: key, offset of the high byte, offset of the
    byte with the low bits, and the bit range in it. *)
Definition chroma_layout : list (string * (nat * nat) * (Z * Z)) :=
  [ ("red_x", (HI_R_X, LO_RG_XY), (6, 7)); ("red_y", (HI_R_Y, LO_RG_XY), (4, 5));
    ("green_x", (HI_G_X, LO_RG_XY), (2, 3)); ("green_y", (HI_G_Y, LO_RG_XY), (0, 1));
    ("blue_x", (HI_B_X, LO_BW_XY), (6, 7)); ("blue_y", (HI_B_Y, LO_BW_XY), (4, 5));
    ("white_x", (HI_W_X, LO_BW_XY), (2, 3)); ("white_y", (HI_W_Y, LO_BW_XY), (0, 1)) ].

Definition extension_record (edid : list byte) : record :=
  <["checksum_valid" := PyBool (byte_sum edid mod 256 =? 0)]>
  (<["checksum" := PyInt (byte_at edid CHECKSUM)]>
  (<["ext_flag" := PyInt (byte_at edid EXTENSION_FLAG)]> ∅)).

(** The manufacturer id of a buffer: the characters of the three 5-bit fields
    of the bytes at offsets 8 and 9. *)
Definition manufacturer_id_of (edid : list byte) : pystr :=
  map (λ shift,
        Z.to_N (Z.land (Z.shiftr (combine_hi_8lo (byte_at edid 8) (byte_at edid 9))
                          shift) 0x1F + 64))
    [10; 5; 0].

Definition header_record (host : Host) (edid : list byte)
    (manufacturer : option pystr) : record :=
  let result : record :=
    <["manufacturer_id" := PyStr (manufacturer_id_of edid)]>
    (<["header" := PyBytes (take 8 edid)]>
    (<["hash" := PyStr (md5_hexdigest host edid)]>
    (<["edid" := PyBytes edid]> ∅))) in
  if truthy manufacturer
  then <["manufacturer" := PyStr (default [] manufacturer)]> result
  else result.

(** The keys every record of a full base block carries. *)
Definition mandatory_keys : list string :=
  [ "edid"; "hash"; "header"; "manufacturer_id";
    "product_id"; "serial_32"; "week_of_manufacture"; "year_of_manufacture";
    "edid_version"; "edid_revision"; "max_h_size_cm"; "max_v_size_cm";
    "gamma"; "features";
    "red_x"; "red_y"; "green_x"; "green_y"; "blue_x"; "blue_y";
    "white_x"; "white_y";
    "ext_flag"; "checksum"; "checksum_valid" ].

(** The keys of the three text descriptors. *)
Definition text_keys : list string := ["serial_ascii"; "ascii"; "monitor_name"].

(** The text of a sanitized descriptor as a [str]: its bytes are ASCII. *)
Definition ascii_text (d : list byte) : pystr := map (λ b, Z.to_N (byte_val b)) d.

(** What a descriptor slot contributes to the record: the key of its text
    type and its sanitized text, when the slot starts with three zero bytes,
    carries a text tag and its text is usable. *)
Definition slot_text (edid : list byte) (bounds : nat * nat) : option (string * pystr) :=
  let block := slice edid (fst bounds) (snd bounds) in
  if bool_decide (take BLOCK_TYPE block = [x00; x00; x00]) then
    match text_types_get (slice block BLOCK_TYPE (BLOCK_TYPE + 1)) with
    | Some key =>
        let text := examined (slice block (fst BLOCK_CONTENTS) (snd BLOCK_CONTENTS)) in
        if count_non_printable text <=? 4
        then Some (key, ascii_text (map dash_out text)) else None
    | None => None
    end
  else None.

(** The text a slot contributes under [key], if any. *)
Definition slot_entry (edid : list byte) (key : string) (bounds : nat * nat)
  : option pystr :=
  match slot_text edid bounds with
  | Some (k, s) => if bool_decide (k = key) then Some s else None
  | None => None
  end.

(** A base block whose second and fourth descriptor slots are both monitor
    names. *)
Definition two_names_edid : list byte :=
  replicate 72 x00
  ++ [x00; x00; x00; xfc; x00; x4f; x4c; x44; x0a] ++ replicate 9 x20
  ++ replicate 18 x00
  ++ [x00; x00; x00; xfc; x00; x4e; x45; x57; x0a] ++ replicate 9 x20
  ++ replicate 2 x00.

(** The corruption [fix_edid_encoding] is written against: bytes read as
    Latin-1 text and written back as UTF-8. A byte below [0x80] stays, any
    other byte [c] becomes the two bytes [0xC0 | c >> 6] and [0x80 | c & 0x3F]. *)
Definition utf8_of_latin1_byte (b : byte) : list byte :=
  if byte_val b <? 0x80 then [b]
  else [ byte_of_Z (Z.lor 0xC0 (Z.shiftr (byte_val b) 6));
         byte_of_Z (Z.lor 0x80 (Z.land (byte_val b) 0x3F)) ].

Definition utf8_of_latin1 (b : list byte) : list byte :=
  concat (map utf8_of_latin1_byte b).

(** [s] is [b] read as Latin-1. *)
Definition latin1_decode (b : list byte) : pystr := map Byte.to_N b.

(** The high byte and the two low bits are recovered from the 10-bit value. *)
Definition ten_bit_split_check (p : Z * Z) : bool :=
  let v := Z.lor (Z.shiftl (fst p) 2) (snd p) in
  (Z.shiftr v 2 =? fst p) && (Z.land v 3 =? snd p).

(** The sub-record of a color-point block at slot offset [i] (5 or 10): its
    index byte, whether the guard [block[i] > i / 5] lets it through, and its
    three values. *)
Definition point_index (block : list byte) (i : nat) : Z := byte_at block i.

Definition point_used (block : list byte) (i : nat) : bool :=
  Z.of_nat i / 5 <? point_index block i.

Definition point_x (block : list byte) (i : nat) : pyval :=
  PyFloat (edid_decode_fraction (byte_at block (i + 2))
             (edid_get_bits (byte_at block (i + 1)) 2 3)).

Definition point_y (block : list byte) (i : nat) : pyval :=
  PyFloat (edid_decode_fraction (byte_at block (i + 3))
             (edid_get_bits (byte_at block (i + 1)) 0 1)).

Definition point_gamma (block : list byte) (i : nat) : pyval :=
  PyFloat (gamma_of (byte_at block (i + 4))).

(** The dict after the turn for offset [i], in closed form. *)
Definition point_record (block : list byte) (i : nat) (result : record) : record :=
  if point_used block i then
    set_default "gamma" (point_gamma block i)
      (<["gamma_" +:+ pretty (point_index block i) := point_gamma block i]>
      (set_default "white_y" (point_y block i)
      (<["white_y_" +:+ pretty (point_index block i) := point_y block i]>
      (set_default "white_x" (point_x block i)
      (<["white_x_" +:+ pretty (point_index block i) := point_x block i]>
         result)))))
  else result.

(** The guard of the two turns on every byte value, as a test. *)
Definition point_guard_check (z : Z) : bool :=
  Bool.eqb (PrimFloat.ltb (PrimFloat.div (float_of_int (Z.of_nat 5)) (float_of_int 5))
              (float_of_int z)) (1 <? z)
  && Bool.eqb (PrimFloat.ltb (PrimFloat.div (float_of_int (Z.of_nat 10)) (float_of_int 5))
                 (float_of_int z)) (2 <? z).

(** ** [DisplayCAL/argyll_RGB2XYZ.py]

    The rows of [icx_ink_table] the functions read (the first row of the
    entries K, R, G and B), the normalization factor computed at import, and
    the additive model of [RGB2XYZ]. A list of three floats stands for the
    list [XYZ]; [math.pow], of the C library, is a parameter. *)

#[warnings="-inexact-float"]
Definition icx_ink_row (name : string) : list float :=
  if bool_decide (name = "K") then [0.01; 0.01; 0.01]%float
  else if bool_decide (name = "R") then [0.412414; 0.212642; 0.019325]%float
  else if bool_decide (name = "G") then [0.357618; 0.715136; 0.119207]%float
  else if bool_decide (name = "B") then [0.180511; 0.072193; 0.950770]%float
  else [].

(** [s["iix"]] *)
Definition iix (e : nat) : string :=
  match e with
  | 0%nat => "R"
  | 1%nat => "G"
  | _ => "B"
  end.

(** [row[j]] for an index in range. *)
Definition at_index (row : list float) (j : nat) : float := default 0%float (row !! j).

(** [s["Ynorm"]]: the sum of the Y entries of R, G and B, inverted. *)
Definition Ynorm : float :=
  PrimFloat.div 1%float
    (fold_left (λ acc e, PrimFloat.add acc (at_index (icx_ink_row (iix e)) 1))
       [0; 1; 2]%nat 0%float).

#[warnings="-inexact-float"]
Definition XYZ_normalize_add_glare (XYZ : list float) : list float :=
  fold_left
    (λ XYZ j,
      let XYZ := <[j := PrimFloat.mul (at_index XYZ j) Ynorm]> XYZ in
      <[j := PrimFloat.add
               (PrimFloat.mul (at_index XYZ j)
                  (PrimFloat.sub 1%float (at_index (icx_ink_row "K") j)))
               (at_index (icx_ink_row "K") j)]> XYZ)
    [0; 1; 2]%nat XYZ.

(** The first statements of the loop body: the value is brought into
    [0.0, 1.0]. *)
Definition clamp_unit (v : float) : float :=
  if PrimFloat.ltb v 0%float then 0%float
  else if PrimFloat.ltb 1%float v then 1%float
  else v.

Section Argyll.
Variable math_pow : float → float → float.

#[warnings="-inexact-float"]
Definition colorant_value (v : float) : float :=
  let v := clamp_unit v in
  if PrimFloat.leb v 0.03928%float then PrimFloat.div v 12.92%float
  else math_pow (PrimFloat.div (PrimFloat.add 0.055%float v) 1.055%float) 2.4%float.

Definition RGB2XYZ (R G B : float) : list float :=
  let d := [R; G; B] in
  let XYZ :=
    fold_left
      (λ XYZ e,
        let v := colorant_value (at_index d e) in
        fold_left
          (λ XYZ j,
            <[j := PrimFloat.add (at_index XYZ j)
                     (PrimFloat.mul v (at_index (icx_ink_row (iix e)) j))]> XYZ)
          [0; 1; 2]%nat XYZ)
      [0; 1; 2]%nat [0%float; 0%float; 0%float] in
  XYZ_normalize_add_glare XYZ.
End Argyll.

(** A well-formed entry of the cache: a non-empty code without whitespace
    and a non-empty name. *)
Definition well_formed_entry (code name : pystr) : Prop :=
  code ≠ [] ∧ name ≠ [] ∧ Forall (λ c, is_unicode_space c = false) code.

(** * Properties *)

(** ** Fraction codec *)

Lemma fraction_inputs_complete (high low : Z) :
  0 ≤ high < 256 → 0 ≤ low < 4 → In (high, low) fraction_inputs.
Proof.
  intros Hh Hl. apply in_prod; apply list_elem_of_In, elem_of_seqZ; lia.
Qed.

(** The decoder and the division agree on every input, as floats. *)
Lemma fraction_table_eq :
  map (λ p, edid_decode_fraction (fst p) (snd p)) fraction_inputs
  = map (λ p, fraction_by_division (fst p) (snd p)) fraction_inputs.
Proof. vm_compute. reflexivity. Qed.

Lemma fraction_exact_table : forallb fraction_exact_check fraction_inputs = true.
Proof. vm_compute. reflexivity. Qed.

Lemma fraction_exact (high low : Z) :
  0 ≤ high < 256 → 0 ≤ low < 4 →
  let v := Z.lor (Z.shiftl high 2) low in
  let r := edid_decode_fraction high low in
  ∃ q, float_exact r = Some q
       ∧ (q == bit_weighted_sum v)%Q ∧ (q == v # 1024)%Q
       ∧ (0 <= q)%Q ∧ (q < 1)%Q
       ∧ PrimFloat.leb 0 r = true ∧ PrimFloat.ltb r 1 = true.
Proof.
  intros Hh Hl v r.
  pose proof (proj1 (forallb_forall _ _) fraction_exact_table (high, low)
                (fraction_inputs_complete high low Hh Hl)) as Hc.
  unfold fraction_exact_check in Hc. cbn [fst snd] in Hc.
  fold v in Hc. fold r in Hc.
  destruct (float_exact r) as [q|]; [|discriminate].
  repeat (apply andb_prop in Hc; destruct Hc as [Hc ?]).
  exists q. repeat split; try assumption.
  - by apply Qeq_bool_iff.
  - by apply Qeq_bool_iff.
  - by apply Qle_bool_iff.
  - apply Qnot_le_lt. intros Hle. apply Qle_bool_iff in Hle.
    destruct (Qle_bool 1 q); discriminate.
Qed.

(** C7. [edid_decode_fraction(0, 0)] is [0.0], [edid_decode_fraction(0xFF, 0b11)]
    is [1023/1024], and for every high byte and two-bit low value the result
    stands for the bit-weighted sum of the ten bits of [(high << 2) | low],
    bit [i] weighing [2^(i-10)], and lies in [0, 1). *)
Theorem edid_decode_fraction_bit_weighted :
  edid_decode_fraction 0 0 = 0%float
  ∧ edid_decode_fraction 0xFF 3 = (1023 / 1024)%float
  ∧ ∀ high low, 0 ≤ high < 256 → 0 ≤ low < 4 →
      let r := edid_decode_fraction high low in
      ∃ q, float_exact r = Some q
           ∧ (q == bit_weighted_sum (Z.lor (Z.shiftl high 2) low))%Q
           ∧ (0 <= q)%Q ∧ (q < 1)%Q
           ∧ PrimFloat.leb 0 r = true ∧ PrimFloat.ltb r 1 = true.
Proof.
  split; [vm_compute; reflexivity|].
  split; [vm_compute; reflexivity|].
  intros high low Hh Hl r.
  destruct (fraction_exact high low Hh Hl) as (q & Hq & Hsum & _ & H0 & H1 & Hf0 & Hf1).
  exists q. auto 10.
Qed.

Lemma edid_decode_fraction_bit_weighted_witness :
  ∃ q, float_exact (edid_decode_fraction 0x80 2) = Some q
       ∧ (q == bit_weighted_sum (Z.lor (Z.shiftl 0x80 2) 2))%Q
       ∧ (0 <= q)%Q ∧ (q < 1)%Q
       ∧ PrimFloat.leb 0 (edid_decode_fraction 0x80 2) = true
       ∧ PrimFloat.ltb (edid_decode_fraction 0x80 2) 1 = true.
Proof.
  apply (proj2 (proj2 edid_decode_fraction_bit_weighted) 0x80 2); lia.
Defined.

(** C10. For every high byte and every low value in [0, 3] the loop of
    [edid_decode_fraction] yields the very float of the direct division
    [((high << 2) | low) / 1024], and that float stands for the rational
    [((high << 2) | low) / 1024] without rounding. *)
Theorem edid_decode_fraction_is_division (high low : Z) :
  0 ≤ high < 256 → 0 ≤ low < 4 →
  edid_decode_fraction high low = fraction_by_division high low
  ∧ ∃ q, float_exact (edid_decode_fraction high low) = Some q
         ∧ (q == Z.lor (Z.shiftl high 2) low # 1024)%Q.
Proof.
  intros Hh Hl. split.
  - apply (ext_in_map fraction_table_eq (high, low)).
    by apply fraction_inputs_complete.
  - destruct (fraction_exact high low Hh Hl) as (q & Hq & _ & Hdiv & _).
    by exists q.
Qed.

Lemma edid_decode_fraction_is_division_witness :
  edid_decode_fraction 0x9E 1 = fraction_by_division 0x9E 1
  ∧ ∃ q, float_exact (edid_decode_fraction 0x9E 1) = Some q
         ∧ (q == Z.lor (Z.shiftl 0x9E 2) 1 # 1024)%Q.
Proof.
  apply (edid_decode_fraction_is_division 0x9E 1); lia.
Defined.

(** ** Manufacturer id *)

(** C8. The bytes [(0x10, 0xAC)], the packed value [(4<<10)|(5<<5)|12],
    decode to ["DEL"]. *)
Theorem parse_manufacturer_id_DEL :
  combine_hi_8lo 0x10 0xAC = Z.lor (Z.lor (Z.shiftl 4 10) (Z.shiftl 5 5)) 12
  ∧ parse_manufacturer_id [x10; xac] = Ok (str "DEL").
Proof. split; vm_compute; reflexivity. Qed.

Lemma byte_val_range (b : byte) : 0 ≤ byte_val b < 256.
Proof.
  unfold byte_val. pose proof (Byte.to_N_bounded b). lia.
Qed.

Lemma five_bits_range (h shift : Z) : 0 ≤ Z.land (Z.shiftr h shift) 0x1F < 32.
Proof.
  change 0x1F with (Z.ones 5). rewrite Z.land_ones by lia.
  apply Z.mod_pos_bound. reflexivity.
Qed.

Lemma chr_five_bits (h shift : Z) :
  chr (Z.land (Z.shiftr h shift) 0x1F + ord "A" - 1)
  = Ok [Z.to_N (Z.land (Z.shiftr h shift) 0x1F + 64)].
Proof.
  pose proof (five_bits_range h shift) as Hr.
  change (ord "A") with 65. unfold chr.
  replace (Z.land (Z.shiftr h shift) 31 + 65 - 1)
    with (Z.land (Z.shiftr h shift) 31 + 64) by lia.
  destruct (Z.leb_spec 0 (Z.land (Z.shiftr h shift) 31 + 64)); [|lia].
  destruct (Z.leb_spec (Z.land (Z.shiftr h shift) 31 + 64) 1114111); [|lia].
  reflexivity.
Qed.

Lemma not_space_64_95 (c : N) : (64 ≤ c ≤ 95)%N → is_unicode_space c = false.
Proof.
  intros Hc. unfold is_unicode_space.
  repeat match goal with
  | |- context [(?a <=? ?b)%N] => destruct (N.leb_spec a b); try lia
  | |- context [(?a =? ?b)%N] => destruct (N.eqb_spec a b); try lia
  end; try reflexivity.
Qed.

Lemma str_strip_three (a b c : N) :
  is_unicode_space a = false → is_unicode_space c = false →
  str_strip [a; b; c] = [a; b; c].
Proof.
  intros Ha Hc. unfold str_strip. cbn. rewrite Ha. cbn. rewrite Hc. reflexivity.
Qed.

(** The character of one 5-bit field of the packed id. *)
Lemma id_char_range (h shift : Z) :
  (64 ≤ Z.to_N (Z.land (Z.shiftr h shift) 0x1F + 64) ≤ 95)%N.
Proof. pose proof (five_bits_range h shift). lia. Qed.

Lemma parse_manufacturer_id_chars (b0 b1 : byte) :
  parse_manufacturer_id [b0; b1]
  = Ok (map (λ shift,
          Z.to_N (Z.land (Z.shiftr (combine_hi_8lo (byte_val b0) (byte_val b1)) shift)
                    0x1F + 64))
        [10; 5; 0]).
Proof.
  unfold parse_manufacturer_id. cbn [getitem lookup list_lookup bind fold_left].
  rewrite !chr_five_bits. cbn [bind app concat map].
  rewrite str_strip_three; [reflexivity| |]; apply not_space_64_95, id_char_range.
Qed.

(** C3, as the spec states it, fails: the block [(0x00, 0x00)] decodes to
    ["@@@"], which has no capital letter. *)
Lemma parse_manufacturer_id_zero_block :
  ¬ ∃ s, parse_manufacturer_id [x00; x00] = Ok s
         ∧ length s = 3%nat ∧ Forall capital_letter s.
Proof.
  intros (s & Hs & _ & Hall).
  vm_compute in Hs. injection Hs as <-.
  apply Forall_cons_1 in Hall as [Hc _]. unfold capital_letter in Hc. lia.
Qed.

(** C3, amended. For every 2-byte block the id has exactly 3 characters, the
    character of each 5-bit field [f] being the one of code [f + 64]; every
    character lies in the code range 64..95 announced by the docstring, and
    is a capital letter exactly when its field is in 1..26. *)
Theorem parse_manufacturer_id_three_chars (b0 b1 : byte) :
  ∃ s, parse_manufacturer_id [b0; b1] = Ok s
       ∧ s = map (λ shift, Z.to_N (id_field b0 b1 shift + 64)) [10; 5; 0]
       ∧ length s = 3%nat
       ∧ Forall (λ c, (64 ≤ c ≤ 95)%N) s
       ∧ ∀ shift, capital_letter (Z.to_N (id_field b0 b1 shift + 64))
                  ↔ 1 ≤ id_field b0 b1 shift ≤ 26.
Proof.
  eexists. split; [apply parse_manufacturer_id_chars|].
  split; [reflexivity|]. split; [reflexivity|]. split.
  - repeat constructor; apply id_char_range.
  - intros shift. unfold capital_letter, id_field.
    pose proof (five_bits_range (combine_hi_8lo (byte_val b0) (byte_val b1)) shift).
    lia.
Qed.

(** ** String sanitizer *)

Lemma getitem_middle (pre d : list byte) (b : byte) :
  getitem (pre ++ b :: d) (length pre) = Ok (byte_val b).
Proof. unfold getitem. by rewrite list_lookup_middle. Qed.

(** The loop over the indices does what a map over the bytes does. *)
Lemma replace_loop (d pre : list byte) (n : Z) :
  fold_left replace_step (seq (length pre) (length d)) (Ok (pre ++ d, n))
  = Ok (pre ++ map blank_out d, n + count_non_printable d).
Proof.
  revert pre n. induction d as [|b d IH]; intros pre n.
  - cbn. unfold count_non_printable. cbn. by rewrite Z.add_0_r.
  - cbn [length seq fold_left]. unfold replace_step at 2.
    cbn [bind]. rewrite getitem_middle. cbn [bind].
    unfold count_non_printable, blank_out. cbn [List.filter map].
    fold (non_printable_byte b).
    pose proof (IH (pre ++ [b])) as IHb. pose proof (IH (pre ++ [x00])) as IH0.
    rewrite length_app in IHb, IH0. cbn [length] in IHb, IH0.
    rewrite Nat.add_1_r in IHb, IH0. rewrite <- !app_assoc in IHb, IH0.
    cbn [app] in IHb, IH0.
    destruct (non_printable_byte b).
    + rewrite (insert_app_r_alt pre (b :: d) (length pre) x00) by lia.
      rewrite Nat.sub_diag. cbn [insert list_insert]. rewrite IH0.
      unfold count_non_printable. cbn [length]. do 2 f_equal. lia.
    + rewrite IHb. reflexivity.
Qed.

Lemma dash_after_blank (b : byte) :
  (if bool_decide (blank_out b = x00) then x2d else blank_out b) = dash_out b.
Proof.
  unfold blank_out, dash_out.
  destruct (non_printable_byte b) eqn:Hb.
  - reflexivity.
  - rewrite bool_decide_eq_false_2; [reflexivity|].
    intros ->. vm_compute in Hb. discriminate.
Qed.

Lemma dash_out_printable (b : byte) : printable_byte (dash_out b).
Proof.
  unfold dash_out, printable_byte, non_printable_byte, non_printable.
  destruct (Z.ltb_spec (byte_val b) 32); cbn [orb].
  - vm_compute. split; discriminate.
  - destruct (Z.ltb_spec 126 (byte_val b)).
    + vm_compute. split; discriminate.
    + lia.
Qed.

(** C6, as the spec states it, fails: five NUL bytes are five bytes outside
    the printable range, yet the result is the empty string, not nothing. *)
Lemma edid_parse_string_five_nul :
  count_non_printable [x00; x00; x00; x00; x00] = 5
  ∧ edid_parse_string [x00; x00; x00; x00; x00] = Ok (Some [])
  ∧ edid_parse_string [x00; x00; x00; x00; x00] ≠ Ok None.
Proof. split; [|split]; [vm_compute; reflexivity ..|discriminate]. Qed.

(** The result of [edid_parse_string] in closed form. *)
Lemma edid_parse_string_eq (desc : list byte) :
  edid_parse_string desc
  = Ok (if count_non_printable (examined desc) <=? 4
        then Some (map dash_out (examined desc)) else None).
Proof.
  unfold edid_parse_string, examined. cbv zeta.
  set (e := rstrip_by is_ascii_space _).
  pose proof (replace_loop e [] 0) as Hloop. cbn [length app] in Hloop.
  rewrite Hloop. cbn [bind].
  rewrite Z.add_0_l. destruct (count_non_printable e <=? 4); [|reflexivity].
  unfold bytes_replace. rewrite map_map.
  do 2 f_equal. apply map_ext. intros b. apply dash_after_blank.
Qed.

Lemma dash_out_all_printable (l : list byte) :
  Forall printable_byte (map dash_out l).
Proof. apply Forall_map, Forall_forall. intros b _. apply dash_out_printable. Qed.

(** C6, amended. [edid_parse_string] never raises; it returns nothing exactly
    when more than 4 of the bytes it examines (the first 13 bytes, cut at the
    first NUL, LF or CR and stripped of trailing whitespace) lie outside
    [32, 126]; otherwise it returns the examined bytes with each of those
    replaced by a dash, a string of printable bytes only. *)
Theorem edid_parse_string_examined (desc : list byte) :
  edid_parse_string desc
  = Ok (if count_non_printable (examined desc) <=? 4
        then Some (map dash_out (examined desc)) else None)
  ∧ Forall printable_byte (map dash_out (examined desc)).
Proof.
  split; [apply edid_parse_string_eq|apply dash_out_all_printable].
Qed.

(** ** Manufacturer database *)

Lemma cache_add_preserves (id name : option pystr) (pnpidcache : cache)
    (code n : pystr) :
  pnpidcache !! code = Some n → cache_add id name pnpidcache !! code = Some n.
Proof.
  intros Hc. unfold cache_add.
  destruct id as [i|], name as [m|]; try done.
  destruct (truthy (Some i) && truthy (Some m)); cbn [andb]; [|done].
  case_bool_decide as Hdom; cbn [negb]; [done|].
  rewrite lookup_insert_ne; [done|].
  intros ->. apply Hdom, elem_of_dom. by exists n.
Qed.

(** The guarded insertion seen from one code: an entry already present stays,
    an absent code takes the name the line supplies for it. *)
Lemma cache_add_lookup (id name : option pystr) (pnpidcache : cache) (code : pystr) :
  cache_add id name pnpidcache !! code
  = match pnpidcache !! code with
    | Some n => Some n
    | None =>
        match id, name with
        | Some i, Some m =>
            if truthy (Some i) && truthy (Some m) && bool_decide (i = code)
            then Some m else None
        | _, _ => None
        end
    end.
Proof.
  destruct (pnpidcache !! code) as [n|] eqn:Hc.
  - by apply cache_add_preserves.
  - unfold cache_add. destruct id as [i|], name as [m|]; try done.
    destruct (truthy (Some i) && truthy (Some m)); cbn [andb]; [|done].
    case_bool_decide as Hdom; cbn [negb].
    + rewrite Hc. rewrite bool_decide_eq_false_2; [done|].
      intros ->. apply elem_of_dom in Hdom as [? ?]. congruence.
    + case_bool_decide as Heq.
      * subst. by rewrite lookup_insert_eq.
      * by rewrite lookup_insert_ne.
Qed.

Lemma parse_pnpid_file_keeps (lines : list pystr) (path : pystr)
    (pnpidcache : cache) (code n : pystr) :
  pnpidcache !! code = Some n →
  snd (parse_pnpid_file lines path pnpidcache) !! code = Some n.
Proof.
  revert pnpidcache. induction lines as [|line rest IH]; intros pnpidcache Hc.
  - done.
  - cbn [parse_pnpid_file].
    destruct (if endswith path (str "hwdb") then parse_hwdb_line line
              else parse_pnpid_line line) as [[id name]|e]; [|done].
    by apply IH, cache_add_preserves.
Qed.

Lemma parse_pnpid_file_lookup (lines : list pystr) (path : pystr)
    (pnpidcache : cache) (code : pystr) :
  fst (parse_pnpid_file lines path pnpidcache) = Ok tt →
  snd (parse_pnpid_file lines path pnpidcache) !! code
  = match pnpidcache !! code with
    | Some n => Some n
    | None => first_name (omap (supplied path) lines) code
    end.
Proof.
  revert pnpidcache. induction lines as [|line rest IH]; intros pnpidcache Hok.
  - cbn. by destruct (pnpidcache !! code).
  - cbn [parse_pnpid_file omap list_omap] in *. unfold supplied at 1.
    destruct (if endswith path (str "hwdb") then parse_hwdb_line line
              else parse_pnpid_line line) as [[id name]|e]; [|done].
    rewrite (IH _ Hok), cache_add_lookup.
    destruct (pnpidcache !! code) as [n|]; [done|].
    destruct id as [i|], name as [m|]; try done.
    destruct (truthy (Some i) && truthy (Some m)); cbn [andb first_name]; [|done].
    by case_bool_decide.
Qed.

(** A line of a file in the hwdb format yields a code or a name, never both:
    such a file supplies no entry. *)
Lemma hwdb_supplies_nothing (path line : pystr) :
  endswith path (str "hwdb") = true → supplied path line = None.
Proof.
  intros Hpath. unfold supplied. rewrite Hpath. unfold parse_hwdb_line.
  destruct (startswith _ _).
  - by destruct (_ !! _).
  - destruct (startswith _ _); [by destruct (_ !! _)|done].
Qed.

(** C9. Population is first-wins: an entry of the cache is never replaced by
    a later line, whether of the same file or of a file parsed afterwards, so
    that after a file is parsed each code absent before carries the name of
    the first line that supplied that code. *)
Theorem parse_pnpid_file_first_wins (lines : list pystr) (path : pystr)
    (pnpidcache : cache) :
  let after := snd (parse_pnpid_file lines path pnpidcache) in
  (∀ code name, pnpidcache !! code = Some name → after !! code = Some name)
  ∧ (∀ lines' path' code name,
       after !! code = Some name →
       snd (parse_pnpid_file lines' path' after) !! code = Some name)
  ∧ (fst (parse_pnpid_file lines path pnpidcache) = Ok tt →
     ∀ code,
       after !! code
       = match pnpidcache !! code with
         | Some name => Some name
         | None => first_name (omap (supplied path) lines) code
         end).
Proof.
  cbv zeta. split; [|split].
  - intros code name. apply parse_pnpid_file_keeps.
  - intros lines' path' code name. apply parse_pnpid_file_keeps.
  - intros Hok code. by apply parse_pnpid_file_lookup.
Qed.

Lemma parse_pnpid_file_first_wins_witness :
  let after := snd (parse_pnpid_file pnp_ids_first pnp_ids_path ∅) in
  after !! str "SAM" = Some (str "Samsung Electric Company")
  ∧ snd (parse_pnpid_file pnp_ids_second pnp_ids_path after) !! str "SAM"
    = Some (str "Samsung Electric Company").
Proof.
  cbv zeta.
  destruct (parse_pnpid_file_first_wins pnp_ids_first pnp_ids_path ∅)
    as (_ & Hlater & Hfirst).
  assert (snd (parse_pnpid_file pnp_ids_first pnp_ids_path ∅) !! str "SAM"
          = Some (str "Samsung Electric Company")) as Hsam.
  { rewrite Hfirst; [|vm_compute; reflexivity]. vm_compute. reflexivity. }
  split; [exact Hsam|]. apply Hlater. exact Hsam.
Defined.

(** ** Decoder: the steps return on a full base block *)

Ltac layout :=
  unfold HEADER, MANUFACTURER_ID, PRODUCT_ID, SERIAL_32, WEEK_OF_MANUFACTURE,
    YEAR_OF_MANUFACTURE, EDID_VERSION, EDID_REVISION, MAX_H_SIZE_CM,
    MAX_V_SIZE_CM, GAMMA, FEATURES, LO_RG_XY, LO_BW_XY, HI_R_X, HI_R_Y, HI_G_X,
    HI_G_Y, HI_B_X, HI_B_Y, HI_W_X, HI_W_Y, BLOCK_TYPE, BLOCK_CONTENTS,
    EXTENSION_FLAG, CHECKSUM, TRC in *; cbn [fst snd] in *.

Lemma getitem_lt (b : list byte) (i : nat) :
  (i < length b)%nat → getitem b i = Ok (byte_at b i).
Proof.
  intros Hi. unfold getitem, byte_at.
  destruct (lookup_lt_is_Some_2 b i Hi) as [x ->]. reflexivity.
Qed.

Lemma getitem_Ok (b : list byte) (i : nat) (z : Z) :
  getitem b i = Ok z → (i < length b)%nat.
Proof.
  unfold getitem. destruct (b !! i) eqn:Hb; [|discriminate].
  intros _. apply lookup_lt_is_Some. eauto.
Qed.

Lemma length_slice {A} (l : list A) (start stop : nat) :
  (stop ≤ length l)%nat → length (slice l start stop) = (stop - start)%nat.
Proof.
  intros Hs. unfold slice. rewrite length_take, length_drop. lia.
Qed.

Lemma list_of_length_2 {A} (l : list A) :
  length l = 2%nat → ∃ a b, l = [a; b].
Proof. destruct l as [|a [|b [|c l]]]; try discriminate. eauto. Qed.

Lemma list_of_length_4 {A} (l : list A) :
  length l = 4%nat → ∃ a b c d, l = [a; b; c; d].
Proof.
  destruct l as [|a [|b [|c [|d [|e l]]]]]; try discriminate. eauto 6.
Qed.

Lemma bind_Ok {A B} (m : res A) (k : A → res B) (b : B) :
  bind m k = Ok b → ∃ a, m = Ok a ∧ k a = Ok b.
Proof. destruct m as [a|e]; [eauto|discriminate]. Qed.

(** Whatever the gamma byte holds, the guard of
    [parse_edid_basic_display_parameters] lets it through: the entry [gamma]
    is always set. *)
Lemma basic_display_parameters_gamma (edid : list byte) :
  (128 ≤ length edid)%nat →
  ∃ r, parse_edid_basic_display_parameters edid = Ok r
       ∧ r !! "gamma" = Some (PyFloat (gamma_of (byte_at edid GAMMA))).
Proof.
  intros Hlen. unfold parse_edid_basic_display_parameters.
  destruct (list_of_length_2 (slice edid (fst PRODUCT_ID) (snd PRODUCT_ID)))
    as (p0 & p1 & ->); [layout; rewrite length_slice; lia|].
  destruct (list_of_length_4 (slice edid (fst SERIAL_32) (snd SERIAL_32)))
    as (s0 & s1 & s2 & s3 & ->); [layout; rewrite length_slice; lia|].
  rewrite !getitem_lt by (layout; lia).
  cbn [unpack_H unpack_I bind py_ne py_eq negb].
  eexists. split; [reflexivity|].
  rewrite lookup_insert_ne by done. by rewrite lookup_insert_eq.
Qed.

Lemma chroma_returns (edid : list byte) (hi lo : nat) (b e : Z) :
  (hi < length edid)%nat → (lo < length edid)%nat →
  chroma edid hi lo b e
  = Ok (PyFloat (edid_decode_fraction (byte_at edid hi)
                   (edid_get_bits (byte_at edid lo) b e))).
Proof.
  intros Hhi Hlo. unfold chroma. by rewrite !getitem_lt.
Qed.

Lemma chromaticity_coordinates_return (edid : list byte) :
  (128 ≤ length edid)%nat → returns (parse_edid_chromaticity_coordinates edid).
Proof.
  intros Hlen. unfold parse_edid_chromaticity_coordinates.
  rewrite !chroma_returns by (layout; lia).
  cbn [bind]. by eexists.
Qed.

Lemma utf8_decode_ascii (d : list byte) :
  Forall (λ b, byte_val b < 128) d → returns (utf8_decode d).
Proof.
  induction 1 as [|b d Hb _ [s IH]]; [by eexists|].
  cbn [utf8_decode]. destruct (Z.ltb_spec (byte_val b) 128); [|lia].
  rewrite IH. by eexists.
Qed.

Lemma printable_is_ascii (d : list byte) :
  Forall printable_byte d → Forall (λ b, byte_val b < 128) d.
Proof.
  intros H. eapply Forall_impl; [exact H|].
  unfold printable_byte. intros b. cbn beta. lia.
Qed.

(** An [int] never equals a [bytes] object. *)
Lemma int_ne_bytes (z : Z) (b : list byte) : py_eq (PyInt z) (PyBytes b) = false.
Proof. reflexivity. Qed.

(** One descriptor slot of a full base block: the step returns, and the only
    entries it can add are the three text entries. *)
Lemma descriptor_step_returns (edid : list byte) (result : record)
    (start stop : nat) :
  (stop ≤ length edid)%nat → (stop - start = 18)%nat →
  returns (descriptor_step edid (Ok result) (start, stop)).
Proof.
  intros Hstop Hsize. unfold descriptor_step. cbn [bind fst snd].
  set (block := slice edid start stop).
  assert (length block = 18%nat) as Hblock
    by (unfold block; rewrite length_slice; lia).
  destruct (py_ne _ _); [by eexists|].
  destruct (text_types_get _) as [text_type|].
  - rewrite edid_parse_string_eq.
    cbn [bind]. destruct (_ <=? 4); [|by eexists].
    match goal with
    | |- context [utf8_decode (map dash_out ?e)] =>
        destruct (utf8_decode_ascii _
                    (printable_is_ascii _ (dash_out_all_printable e))) as [s ->]
    end.
    by eexists.
  - rewrite !getitem_lt by (layout; lia). cbn [bind].
    rewrite !int_ne_bytes. by eexists.
Qed.

Lemma descriptor_blocks_return (edid : list byte) :
  (128 ≤ length edid)%nat → returns (parse_edid_descriptor_blocks edid).
Proof.
  intros Hlen. unfold parse_edid_descriptor_blocks, BLOCKS. cbn [fold_left].
  destruct (descriptor_step_returns edid ∅ 54 72) as [r1 ->]; [lia..|].
  destruct (descriptor_step_returns edid r1 72 90) as [r2 ->]; [lia..|].
  destruct (descriptor_step_returns edid r2 90 108) as [r3 ->]; [lia..|].
  destruct (descriptor_step_returns edid r3 108 126) as [r4 ->]; [lia..|].
  by eexists.
Qed.

Lemma walk_extension_blocks_returns (turns : nat) (block : list byte) :
  walk_extension_blocks turns block = Ok tt.
Proof.
  revert block. induction turns as [|turns IH]; intros block; [reflexivity|].
  cbn [walk_extension_blocks]. case_bool_decide as Hnil; [reflexivity|].
  rewrite getitem_lt by (destruct block; [done|cbn; lia]).
  cbn [bind]. rewrite int_ne_bytes. cbn [bind]. apply IH.
Qed.

Lemma extension_blocks_checksum (edid : list byte) :
  (128 ≤ length edid)%nat →
  ∃ r, parse_edid_extension_blocks edid = Ok r
       ∧ r !! "checksum_valid" = Some (PyBool (byte_sum edid mod 256 =? 0)).
Proof.
  intros Hlen. unfold parse_edid_extension_blocks.
  rewrite !getitem_lt by (layout; lia). cbn [bind].
  rewrite walk_extension_blocks_returns.
  destruct (_ && _); cbn [bind]; eexists; (split; [reflexivity|]);
    by rewrite lookup_insert_eq.
Qed.

Lemma extension_blocks_Ok (edid : list byte) (r : record) :
  parse_edid_extension_blocks edid = Ok r → (128 ≤ length edid)%nat.
Proof.
  unfold parse_edid_extension_blocks. intros H.
  apply bind_Ok in H as (flag & _ & H).
  apply bind_Ok in H as (sum & Hsum & _).
  apply getitem_Ok in Hsum. layout. lia.
Qed.

Lemma get_manufacturer_name_returns (host : Host) (pnpidcache : cache)
    (manufacturer_id : pystr) :
  database_loads host pnpidcache →
  returns (fst (get_manufacturer_name host manufacturer_id pnpidcache)).
Proof.
  intros Hdb. unfold get_manufacturer_name.
  case_bool_decide as Hempty.
  - destruct Hdb as [Hne|Hload]; [done|].
    destruct (load_pnpidcache host pnpidcache) as [r c]. cbn [fst] in *.
    subst r. by eexists.
  - by eexists.
Qed.

Lemma parse_edid_header_returns (host : Host) (pnpidcache : cache)
    (edid : list byte) :
  database_loads host pnpidcache → (128 ≤ length edid)%nat →
  returns (fst (parse_edid_header host edid pnpidcache)).
Proof.
  intros Hdb Hlen. unfold parse_edid_header.
  destruct (list_of_length_2
              (slice edid (fst MANUFACTURER_ID) (snd MANUFACTURER_ID)))
    as (b0 & b1 & ->); [layout; rewrite length_slice; lia|].
  rewrite parse_manufacturer_id_chars.
  match goal with
  | |- context [get_manufacturer_name host ?id pnpidcache] =>
      destruct (get_manufacturer_name_returns host pnpidcache id Hdb) as [m Hm];
      destruct (get_manufacturer_name host id pnpidcache) as [r c]
  end.
  cbn [fst] in *. subst r. by eexists.
Qed.

(** On a buffer of at least 128 bytes every step of [parse_edid] returns, and
    the last update sets [checksum_valid]. *)
Lemma parse_edid_returns (host : Host) (pnpidcache : cache) (edid : pyval)
    (b : list byte) :
  database_loads host pnpidcache → normalize edid = Ok b → (128 ≤ length b)%nat →
  ∃ r, fst (parse_edid host edid pnpidcache) = Ok r
       ∧ r !! "checksum_valid" = Some (PyBool (byte_sum b mod 256 =? 0)).
Proof.
  intros Hdb Hnorm Hlen. unfold parse_edid. rewrite Hnorm.
  destruct (parse_edid_header_returns host pnpidcache b Hdb Hlen) as [r0 Hr0].
  destruct (parse_edid_header host b pnpidcache) as [r c]. cbn [fst] in *.
  subst r. cbn [bind].
  destruct (basic_display_parameters_gamma b Hlen) as (r1 & -> & _).
  destruct (chromaticity_coordinates_return b Hlen) as [r2 ->].
  destruct (descriptor_blocks_return b Hlen) as [r3 ->].
  destruct (extension_blocks_checksum b Hlen) as (r4 & -> & Hsum).
  cbn [bind]. eexists. split; [reflexivity|].
  unfold update. by apply lookup_union_Some_l.
Qed.

(** Conversely a record is only returned for a buffer that, once normalized,
    has at least 128 bytes. *)
Lemma parse_edid_Ok (host : Host) (pnpidcache : cache) (edid : pyval)
    (r : record) :
  fst (parse_edid host edid pnpidcache) = Ok r →
  ∃ b, normalize edid = Ok b ∧ (128 ≤ length b)%nat
       ∧ r !! "checksum_valid" = Some (PyBool (byte_sum b mod 256 =? 0)).
Proof.
  unfold parse_edid. destruct (normalize edid) as [b|e]; [|discriminate].
  destruct (parse_edid_header host b pnpidcache) as [r0 c]. cbn [fst].
  intros H.
  apply bind_Ok in H as (result & _ & H).
  apply bind_Ok in H as (basic & _ & H).
  apply bind_Ok in H as (chromaticity & _ & H).
  apply bind_Ok in H as (descriptors & _ & H).
  apply bind_Ok in H as (extension & Hext & H).
  injection H as <-.
  pose proof (extension_blocks_Ok b extension Hext) as Hlen.
  destruct (extension_blocks_checksum b Hlen) as (r4 & Hr4 & Hsum).
  exists b. split; [reflexivity|]. split; [exact Hlen|].
  unfold update. apply lookup_union_Some_l. congruence.
Qed.

Lemma normalize_standard (b : list byte) :
  Z.of_nat (length b) ∈ [128; 256; 384] → normalize (PyBytes b) = Ok b.
Proof.
  intros Hlen. unfold normalize. cbn [py_len bind].
  by rewrite bool_decide_eq_true_2.
Qed.

Lemma normalize_plain (b : list byte) :
  xc2 ∉ b → xc3 ∉ b → normalize (PyBytes b) = Ok b.
Proof.
  intros H2 H3. unfold normalize. cbn [py_len bind].
  destruct (negb _); [|reflexivity].
  cbn [fix_edid_encoding]. by rewrite !bool_decide_eq_false_2.
Qed.

Lemma text_types_get_Some (key : list byte) (text_type : string) :
  text_types_get key = Some text_type →
  text_type ∈ ["serial_ascii"; "ascii"; "monitor_name"].
Proof.
  unfold text_types_get, text_types. cbn [find fst snd].
  repeat case_bool_decide; cbn; intros [= <-]; set_solver.
Qed.

Lemma descriptor_step_keeps (edid : list byte) (result r : record)
    (bounds : nat * nat) (key : string) :
  key ∉ ["serial_ascii"; "ascii"; "monitor_name"] →
  descriptor_step edid (Ok result) bounds = Ok r → r !! key = result !! key.
Proof.
  intros Hkey. unfold descriptor_step. cbn [bind].
  destruct (py_ne _ _); [by intros [= <-]|].
  destruct (text_types_get _) as [text_type|] eqn:Htype.
  - apply text_types_get_Some in Htype.
    intros H. apply bind_Ok in H as (desc & _ & H).
    destruct desc as [d|]; [|by injection H as <-].
    apply bind_Ok in H as (s & _ & H). injection H as <-.
    apply lookup_insert_ne. by intros ->.
  - intros H. apply bind_Ok in H as (t & _ & H).
    rewrite int_ne_bytes in H.
    apply bind_Ok in H as (t' & _ & H).
    rewrite int_ne_bytes in H. by injection H as <-.
Qed.

(** Whatever the buffer holds, the descriptor blocks contribute nothing but
    the three text entries: no slot reaches the color-point parser. *)
Lemma descriptor_blocks_only_text (edid : list byte) (r : record) (key : string) :
  key ∉ ["serial_ascii"; "ascii"; "monitor_name"] →
  parse_edid_descriptor_blocks edid = Ok r → r !! key = None.
Proof.
  intros Hkey. unfold parse_edid_descriptor_blocks, BLOCKS. cbn [fold_left].
  destruct (descriptor_step edid (Ok ∅) (54%nat, 72%nat)) as [r1|] eqn:H1;
    [|discriminate].
  destruct (descriptor_step edid (Ok r1) (72%nat, 90%nat)) as [r2|] eqn:H2;
    [|discriminate].
  destruct (descriptor_step edid (Ok r2) (90%nat, 108%nat)) as [r3|] eqn:H3;
    [|discriminate].
  intros H4.
  rewrite (descriptor_step_keeps _ _ _ _ key Hkey H4).
  rewrite (descriptor_step_keeps _ _ _ _ key Hkey H3).
  rewrite (descriptor_step_keeps _ _ _ _ key Hkey H2).
  rewrite (descriptor_step_keeps _ _ _ _ key Hkey H1).
  apply lookup_empty.
Qed.

(** [get_edid] does not hand a buffer of fewer than 128 bytes to [parse_edid]:
    the record is empty. *)
Lemma get_edid_short (host : Host) (pnpidcache : cache) (b : list byte) :
  (length b < 128)%nat →
  get_edid_from host (Some (PyBytes b)) pnpidcache = (Ok ∅, pnpidcache).
Proof.
  intros Hlen. unfold get_edid_from. cbn [py_len].
  destruct (Z.leb_spec 128 (Z.of_nat (length b))); [lia|].
  by rewrite andb_false_r.
Qed.

(** ** Decoder: the claims *)

(** C1. The gamma sentinel is not honoured: on a base block whose gamma byte
    is [0xFF] the guard compares an [int] with a [bytes] object, which are
    never equal, and the record carries [gamma = 0xFF / 100.0 + 1], the float nearest to 3.55. *)
Theorem gamma_sentinel_not_omitted :
  getitem gamma_ff_edid GAMMA = Ok 0xFF
  ∧ py_ne (PyInt 0xFF) (PyBytes [xff]) = true
  ∧ gamma_of 0xFF = 0x1.c666666666666p+1%float
  ∧ field (parse_edid_basic_display_parameters gamma_ff_edid) "gamma"
    = Ok (Some (PyFloat (gamma_of 0xFF)))
  ∧ field (fst (parse_edid bare_host (PyBytes gamma_ff_edid) ∅)) "gamma"
    = Ok (Some (PyFloat (gamma_of 0xFF))).
Proof.
  split; [vm_compute; reflexivity|].
  split; [reflexivity|].
  repeat split; vm_compute; reflexivity.
Qed.

(** C4. The color-point descriptor is not dispatched: the slot of
    [color_point_edid] at offset 54 starts with three zero bytes and has the
    tag [0xFB], and the color-point parser decodes white points 2 and 3 from
    it, but [parse_edid_descriptor_blocks] compares the [int] tag with a
    [bytes] constant and returns an empty dict, so the record lacks the
    indexed keys. *)
Theorem color_point_slot_not_dispatched :
  slice color_point_edid 54 72 = color_point_slot
  ∧ take BLOCK_TYPE color_point_slot = [x00; x00; x00]
  ∧ getitem color_point_slot BLOCK_TYPE = Ok 0xFB
  ∧ (let cp := parse_color_point_data color_point_slot in
     field cp "white_x_2" = Ok (Some (PyFloat (edid_decode_fraction 0x80 1)))
     ∧ field cp "white_y_2" = Ok (Some (PyFloat (edid_decode_fraction 0x40 1)))
     ∧ field cp "white_x_3" = Ok (Some (PyFloat (edid_decode_fraction 0x50 2)))
     ∧ field cp "white_y_3" = Ok (Some (PyFloat (edid_decode_fraction 0x54 2)))
     ∧ field cp "white_x" = Ok (Some (PyFloat (edid_decode_fraction 0x80 1)))
     ∧ field cp "white_y" = Ok (Some (PyFloat (edid_decode_fraction 0x40 1))))
  ∧ parse_edid_descriptor_blocks color_point_edid = Ok ∅
  ∧ (let r := fst (parse_edid bare_host (PyBytes color_point_edid) ∅) in
     field r "white_x_2" = Ok None ∧ field r "white_y_2" = Ok None
     ∧ field r "white_x_3" = Ok None ∧ field r "white_y_3" = Ok None).
Proof.
  cbv zeta. split; [vm_compute; reflexivity|].
  split; [reflexivity|].
  repeat split; vm_compute; reflexivity.
Qed.

Lemma byte_sum_acc (b : list byte) (acc : Z) :
  fold_left (λ acc x, acc + byte_val x) b acc = acc + sum_of_bytes b.
Proof.
  revert acc. induction b as [|x rest IH]; intros acc.
  - cbn. lia.
  - cbn [fold_left sum_of_bytes]. rewrite IH. lia.
Qed.

(** The accumulation of the decoder adds up every byte of the buffer. *)
Lemma byte_sum_is_sum (b : list byte) : byte_sum b = sum_of_bytes b.
Proof. unfold byte_sum. by rewrite byte_sum_acc. Qed.

(** C5. [checksum_valid] is true exactly when the bytes of the decoded buffer,
    all of them, sum to 0 modulo 256: for every input [parse_edid] decodes,
    where the decoded buffer is the normalized input, and in particular for
    every buffer of 128, 256 or 384 bytes, which is decoded as it is. *)
Theorem checksum_valid_iff_sum (host : Host) (pnpidcache : cache) :
  (∀ edid r,
     fst (parse_edid host edid pnpidcache) = Ok r →
     ∃ b valid, normalize edid = Ok b
       ∧ r !! "checksum_valid" = Some (PyBool valid)
       ∧ (valid = true ↔ sum_of_bytes b mod 256 = 0))
  ∧ (∀ b,
       Z.of_nat (length b) ∈ [128; 256; 384] → database_loads host pnpidcache →
       ∃ r valid, fst (parse_edid host (PyBytes b) pnpidcache) = Ok r
         ∧ r !! "checksum_valid" = Some (PyBool valid)
         ∧ (valid = true ↔ sum_of_bytes b mod 256 = 0)).
Proof.
  split.
  - intros edid r Hr.
    destruct (parse_edid_Ok host pnpidcache edid r Hr) as (b & Hb & _ & Hsum).
    exists b, (byte_sum b mod 256 =? 0).
    split; [exact Hb|]. split; [exact Hsum|].
    rewrite byte_sum_is_sum. apply Z.eqb_eq.
  - intros b Hlen Hdb.
    destruct (parse_edid_returns host pnpidcache (PyBytes b) b Hdb) as (r & Hr & Hsum).
    + by apply normalize_standard.
    + set_unfold in Hlen. lia.
    + exists r, (byte_sum b mod 256 =? 0).
      split; [exact Hr|]. split; [exact Hsum|].
      rewrite byte_sum_is_sum. apply Z.eqb_eq.
Qed.

Lemma checksum_valid_iff_sum_witness :
  (∃ r, fst (parse_edid bare_host (PyBytes gamma_ff_edid) ∅) = Ok r
        ∧ r !! "checksum_valid" = Some (PyBool false))
  ∧ (∃ r, fst (parse_edid bare_host (PyBytes valid_checksum_edid) ∅) = Ok r
          ∧ r !! "checksum_valid" = Some (PyBool true)).
Proof.
  assert (database_loads bare_host ∅) as Hdb by (right; vm_compute; reflexivity).
  split.
  - destruct (proj2 (checksum_valid_iff_sum bare_host ∅) gamma_ff_edid)
      as (r & valid & Hr & Hvalid & Hiff);
      [apply list_elem_of_here|exact Hdb|].
    exists r. split; [exact Hr|]. destruct valid; [|exact Hvalid].
    pose proof (proj1 Hiff eq_refl) as Hsum. vm_compute in Hsum. discriminate Hsum.
  - destruct (proj2 (checksum_valid_iff_sum bare_host ∅) valid_checksum_edid)
      as (r & valid & Hr & Hvalid & Hiff);
      [apply list_elem_of_here|exact Hdb|].
    exists r. split; [exact Hr|]. destruct valid; [exact Hvalid|].
    assert (false = true) as Hfalse by (apply Hiff; vm_compute; reflexivity).
    discriminate Hfalse.
Defined.

(** C2, as the spec states it, fails: a buffer of 127 zero bytes is passed on
    unchanged and the read of the checksum byte raises [IndexError]; a
    buffer of 129 bytes that starts with a lone [0xC2] makes the repair raise
    [UnicodeDecodeError]. *)
Lemma parse_edid_raises :
  fst (parse_edid bare_host (PyBytes (replicate 127 x00)) ∅) = Raise IndexError
  ∧ ¬ returns (fst (parse_edid bare_host (PyBytes (replicate 127 x00)) ∅))
  ∧ fst (parse_edid bare_host (PyBytes (xc2 :: replicate 128 x00)) ∅)
    = Raise UnicodeDecodeError.
Proof.
  assert (fst (parse_edid bare_host (PyBytes (replicate 127 x00)) ∅)
          = Raise IndexError) as H by (vm_compute; reflexivity).
  split; [exact H|]. split; [|vm_compute; reflexivity].
  intros [r Hr]. rewrite H in Hr. discriminate.
Qed.

(** C2, amended. Provided the manufacturer database loads, [parse_edid]
    returns a record exactly when the normalized buffer (the input after the
    encoding repair, applied to lengths other than 128, 256 and 384) exists
    and has at least 128 bytes. It does so for every buffer of 128, 256 or
    384 bytes and for every buffer of at least 128 bytes without the bytes
    [0xC2] and [0xC3]; otherwise an exception is raised. *)
Theorem parse_edid_returns_iff (host : Host) (pnpidcache : cache) :
  database_loads host pnpidcache →
  (∀ edid,
     returns (fst (parse_edid host edid pnpidcache))
     ↔ ∃ b, normalize edid = Ok b ∧ (128 ≤ length b)%nat)
  ∧ (∀ b, Z.of_nat (length b) ∈ [128; 256; 384] →
          returns (fst (parse_edid host (PyBytes b) pnpidcache)))
  ∧ (∀ b, (128 ≤ length b)%nat → xc2 ∉ b → xc3 ∉ b →
          returns (fst (parse_edid host (PyBytes b) pnpidcache))).
Proof.
  intros Hdb.
  assert (∀ edid b, normalize edid = Ok b → (128 ≤ length b)%nat →
                    returns (fst (parse_edid host edid pnpidcache))) as Hret.
  { intros edid b Hb Hlen.
    destruct (parse_edid_returns host pnpidcache edid b Hdb Hb Hlen) as (r & Hr & _).
    by exists r. }
  split; [|split].
  - intros edid. split.
    + intros [r Hr].
      destruct (parse_edid_Ok host pnpidcache edid r Hr) as (b & Hb & Hlen & _).
      eauto.
    + intros (b & Hb & Hlen). eauto.
  - intros b Hlen. apply (Hret _ b); [by apply normalize_standard|].
    set_unfold in Hlen. lia.
  - intros b Hlen H2 H3. apply (Hret _ b); [by apply normalize_plain|done].
Qed.

Lemma parse_edid_returns_iff_witness :
  returns (fst (parse_edid bare_host (PyBytes gamma_ff_edid) ∅)).
Proof.
  assert (database_loads bare_host ∅) as Hdb by (right; vm_compute; reflexivity).
  apply (proj1 (proj2 (parse_edid_returns_iff bare_host ∅ Hdb)) gamma_ff_edid).
  apply list_elem_of_here.
Defined.

(** * Further properties of the module *)

(** ** Bit helpers *)

(** X1. For a non-negative bit position, [edid_get_bit] is the bit of the
    value at that position, 0 or 1. *)
Theorem edid_get_bit_testbit (value bit : Z) :
  0 ≤ bit → edid_get_bit value bit = Z.b2z (Z.testbit value bit).
Proof.
  intros Hbit. unfold edid_get_bit.
  rewrite Z.shiftl_1_l.
  destruct (Z.testbit value bit) eqn:Hb.
  - replace (Z.land value (2 ^ bit)) with (2 ^ bit).
    + rewrite Z.shiftr_div_pow2 by lia. apply Z.div_same. lia.
    + apply Z.bits_inj'. intros n Hn. rewrite Z.land_spec.
      destruct (Z.eq_dec n bit) as [->|Hne].
      * rewrite Hb. by rewrite Z.pow2_bits_true.
      * rewrite Z.pow2_bits_false by lia. by rewrite andb_false_r.
  - replace (Z.land value (2 ^ bit)) with 0; [apply Z.shiftr_0_l|].
    apply Z.bits_inj'. intros n Hn. rewrite Z.land_spec, Z.bits_0.
    destruct (Z.eq_dec n bit) as [->|Hne].
    + by rewrite Hb.
    + rewrite Z.pow2_bits_false by lia. by rewrite andb_false_r.
Qed.

Lemma edid_get_bit_testbit_witness :
  edid_get_bit 0xAC 3 = Z.b2z (Z.testbit 0xAC 3).
Proof. apply (edid_get_bit_testbit 0xAC 3). lia. Defined.

Lemma get_bits_div_mod (value begin_ end_ : Z) :
  0 ≤ begin_ → begin_ ≤ end_ + 1 →
  edid_get_bits value begin_ end_ = (value / 2 ^ begin_) mod 2 ^ (end_ - begin_ + 1)
  ∧ 0 ≤ edid_get_bits value begin_ end_ < 2 ^ (end_ - begin_ + 1).
Proof.
  intros Hb He. unfold edid_get_bits. cbv zeta.
  rewrite Z.shiftl_1_l, Z.sub_1_r, <- Z.ones_equiv.
  rewrite Z.land_ones by lia. rewrite Z.shiftr_div_pow2 by lia.
  split; [reflexivity|]. apply Z.mod_pos_bound. apply Z.pow_pos_nonneg; lia.
Qed.

(** X2. For [0 <= begin <= end + 1], [edid_get_bits] is the value shifted
    down by [begin] and reduced modulo [2^(end - begin + 1)]: a number of
    [end - begin + 1] bits. *)
Theorem edid_get_bits_div_mod (value begin_ end_ : Z) :
  0 ≤ begin_ → begin_ ≤ end_ + 1 →
  edid_get_bits value begin_ end_ = (value / 2 ^ begin_) mod 2 ^ (end_ - begin_ + 1)
  ∧ 0 ≤ edid_get_bits value begin_ end_ < 2 ^ (end_ - begin_ + 1).
Proof. apply get_bits_div_mod. Qed.

Lemma edid_get_bits_div_mod_witness :
  edid_get_bits 0xAC 2 3 = (0xAC / 2 ^ 2) mod 2 ^ (3 - 2 + 1)
  ∧ 0 ≤ edid_get_bits 0xAC 2 3 < 2 ^ (3 - 2 + 1).
Proof. apply (edid_get_bits_div_mod 0xAC 2 3); lia. Defined.

(** X3. The four 2-bit fields the chromaticity parser cuts out of a byte are
    each in [0, 3] and together make up the byte. *)
Theorem two_bit_fields_of_byte (b : byte) :
  let f := edid_get_bits (byte_val b) in
  Forall (λ x, 0 ≤ x ≤ 3) [f 6 7; f 4 5; f 2 3; f 0 1]
  ∧ byte_val b = 64 * f 6 7 + 16 * f 4 5 + 4 * f 2 3 + f 0 1.
Proof.
  cbv zeta. pose proof (byte_val_range b) as Hb.
  destruct (get_bits_div_mod (byte_val b) 6 7) as [-> _]; [lia..|].
  destruct (get_bits_div_mod (byte_val b) 4 5) as [-> _]; [lia..|].
  destruct (get_bits_div_mod (byte_val b) 2 3) as [-> _]; [lia..|].
  destruct (get_bits_div_mod (byte_val b) 0 1) as [-> _]; [lia..|].
  change (2 ^ 6) with 64. change (2 ^ 4) with 16. change (2 ^ 2) with 4.
  change (2 ^ 0) with 1. change (2 ^ (7 - 6 + 1)) with 4.
  change (2 ^ (5 - 4 + 1)) with 4. change (2 ^ (3 - 2 + 1)) with 4.
  change (2 ^ (1 - 0 + 1)) with 4.
  split.
  - repeat constructor; try (apply Z.mod_pos_bound; lia);
      match goal with |- ?x mod 4 ≤ 3 =>
        pose proof (Z.mod_pos_bound x 4 eq_refl); lia end.
  - rewrite Z.div_1_r.
    pose proof (Z.div_mod (byte_val b) 4 ltac:(lia)).
    pose proof (Z.div_mod (byte_val b / 4) 4 ltac:(lia)).
    pose proof (Z.div_mod (byte_val b / 4 / 4) 4 ltac:(lia)).
    rewrite !Z.div_div in * by lia.
    change (4 * 4) with 16 in *. change (16 * 4) with 64 in *.
    assert (byte_val b / 64 < 4) by (apply Z.div_lt_upper_bound; lia).
    assert (0 ≤ byte_val b / 64) by (apply Z.div_pos; lia).
    rewrite (Z.mod_small (byte_val b / 64) 4) by lia. lia.
Qed.

(** ** Manufacturer id *)

Lemma unpack_table : forallb unpack_check five_bit_triples = true.
Proof. vm_compute. reflexivity. Qed.

(** X4. Decoding undoes packing: three 5-bit fields packed into two bytes
    decode to the three characters of codes field + 64, so every triple of
    capital letters is recovered from its packed form; the top bit of the
    16-bit value does not matter. *)
Theorem parse_manufacturer_id_unpacks (f1 f2 f3 : Z) :
  0 ≤ f1 < 32 → 0 ≤ f2 < 32 → 0 ≤ f3 < 32 →
  parse_manufacturer_id (pack_id f1 f2 f3)
  = Ok [Z.to_N (f1 + 64); Z.to_N (f2 + 64); Z.to_N (f3 + 64)]
  ∧ parse_manufacturer_id (pack_id_top f1 f2 f3)
    = parse_manufacturer_id (pack_id f1 f2 f3).
Proof.
  intros H1 H2 H3.
  assert (In (f1, (f2, f3)) five_bit_triples) as Hin.
  { repeat apply in_prod; apply list_elem_of_In, elem_of_seqZ; lia. }
  pose proof (proj1 (forallb_forall _ _) unpack_table _ Hin) as Hc.
  unfold unpack_check in Hc.
  destruct (parse_manufacturer_id (pack_id f1 f2 f3)) as [s|]; [|done].
  destruct (parse_manufacturer_id (pack_id_top f1 f2 f3)) as [s'|]; [|done].
  apply andb_prop in Hc as [Hs Hs'].
  apply bool_decide_eq_true in Hs, Hs'. by subst.
Qed.

Lemma parse_manufacturer_id_unpacks_witness :
  parse_manufacturer_id (pack_id 19 1 13) = Ok (str "SAM")
  ∧ parse_manufacturer_id (pack_id_top 19 1 13)
    = parse_manufacturer_id (pack_id 19 1 13).
Proof. apply (parse_manufacturer_id_unpacks 19 1 13); lia. Defined.

(** X5. [parse_manufacturer_id] reads the first two bytes of its block and
    nothing else: a block of fewer than two bytes raises [IndexError], and
    bytes after the second do not change the result. *)
Theorem parse_manufacturer_id_two_bytes :
  parse_manufacturer_id [] = Raise IndexError
  ∧ (∀ b0, parse_manufacturer_id [b0] = Raise IndexError)
  ∧ (∀ b0 b1 rest,
       parse_manufacturer_id (b0 :: b1 :: rest) = parse_manufacturer_id [b0; b1])
  ∧ (∀ block, returns (parse_manufacturer_id block) ↔ (2 ≤ length block)%nat).
Proof.
  split; [reflexivity|]. split; [reflexivity|]. split; [reflexivity|].
  intros block. destruct block as [|b0 [|b1 rest]].
  - split; [intros [s Hs]; discriminate|cbn; lia].
  - split; [intros [s Hs]; discriminate|cbn; lia].
  - change (parse_manufacturer_id (b0 :: b1 :: rest))
      with (parse_manufacturer_id [b0; b1]).
    rewrite parse_manufacturer_id_chars. split; [cbn; lia|by eexists].
Qed.

(** ** String sanitizer *)

Lemma rstrip_by_prefix {A} (p : A → bool) (l : list A) :
  rstrip_by p l `prefix_of` l.
Proof.
  induction l as [|c r IH]; [done|]. cbn [rstrip_by].
  destruct (rstrip_by p r) as [|x r'] eqn:E.
  - destruct (p c); [apply prefix_nil|]. apply prefix_cons, prefix_nil.
  - by apply prefix_cons.
Qed.

Lemma rstrip_by_last {A} (p : A → bool) (l : list A) (b : A) :
  last (rstrip_by p l) = Some b → p b = false.
Proof.
  induction l as [|c r IH]; [done|]. cbn [rstrip_by].
  destruct (rstrip_by p r) as [|x r'] eqn:E.
  - destruct (p c) eqn:Hc; [done|]. cbn. by intros [= <-].
  - rewrite last_cons_cons. exact IH.
Qed.

Lemma rstrip_by_fixed {A} (p : A → bool) (l : list A) :
  (∀ b, last l = Some b → p b = false) → rstrip_by p l = l.
Proof.
  induction l as [|c r IH]; [done|]. intros Hlast. cbn [rstrip_by].
  destruct r as [|x r'].
  - cbn. by rewrite (Hlast c eq_refl).
  - rewrite IH; [done|]. intros b Hb. apply Hlast. by rewrite last_cons_cons.
Qed.

Lemma bytes_replace_absent (l : list byte) (old new : byte) :
  old ∉ l → bytes_replace l old new = l.
Proof.
  intros Hl. unfold bytes_replace. rewrite <- (map_id l) at 2.
  apply map_ext_in. intros b Hb. rewrite bool_decide_eq_false_2; [done|].
  intros ->. by apply Hl, list_elem_of_In.
Qed.

Lemma bytes_find_absent (l : list byte) (x : byte) :
  x ∉ l → bytes_find l x = -1.
Proof.
  induction l as [|b r IH]; [done|]. intros Hx. cbn [bytes_find].
  rewrite bool_decide_eq_false_2 by (intros ->; apply Hx; left).
  rewrite IH; [done|]. intros Hr. apply Hx. by right.
Qed.

Lemma bytes_find_ge (l : list byte) (x : byte) : -1 ≤ bytes_find l x.
Proof.
  induction l as [|b r IH]; [done|]. cbn [bytes_find].
  case_bool_decide; [lia|]. destruct (Z.eqb_spec (bytes_find r x) (-1)); lia.
Qed.

(** Cutting at the first NUL, LF or CR leaves a prefix of the bytes. *)
Lemma cut_prefix (d : list byte) :
  let d' := bytes_replace (bytes_replace d x0a x00) x0d x00 in
  (if negb (bytes_find d' x00 =? -1) then take (Z.to_nat (bytes_find d' x00)) d'
   else d') `prefix_of` d.
Proof.
  induction d as [|b r IH]; [done|]. cbv zeta in *.
  cbn [bytes_replace map bytes_find]. fold (bytes_replace r x0a x00).
  fold (bytes_replace (bytes_replace r x0a x00) x0d x00).
  set (r' := bytes_replace (bytes_replace r x0a x00) x0d x00) in *.
  pose proof (bytes_find_ge r' x00) as Hge.
  repeat case_bool_decide; subst; try done; cbn [negb Z.eqb Z.to_nat take];
    try apply prefix_nil.
  destruct (Z.eqb_spec (bytes_find r' x00) (-1)) as [Heq|Hne].
  - cbn [negb Z.eqb]. rewrite Heq in IH. cbn in IH. by apply prefix_cons.
  - destruct (Z.eqb_spec (bytes_find r' x00 + 1) (-1)); [lia|]. cbn [negb] in *.
    replace (Z.to_nat (bytes_find r' x00 + 1))
      with (S (Z.to_nat (bytes_find r' x00))) by lia.
    cbn [take]. by apply prefix_cons.
Qed.

Lemma examined_prefix (desc : list byte) :
  examined desc `prefix_of` take 13 desc.
Proof.
  unfold examined. cbv zeta.
  etransitivity; [apply rstrip_by_prefix|]. apply (cut_prefix (take 13 desc)).
Qed.

Lemma printable_not_space_dash (b : byte) :
  is_ascii_space b = false → is_ascii_space (dash_out b) = false.
Proof.
  unfold dash_out. by destruct (non_printable_byte b).
Qed.

Lemma printable_dash_out (l : list byte) :
  Forall printable_byte l → map dash_out l = l ∧ count_non_printable l = 0.
Proof.
  unfold count_non_printable.
  induction 1 as [|b l Hb _ [IH1 IH2]]; [done|].
  cbn [map List.filter]. unfold dash_out at 1.
  assert (non_printable_byte b = false) as ->.
  { unfold non_printable_byte, non_printable, printable_byte in *.
    destruct (Z.ltb_spec (byte_val b) 32); [lia|].
    destruct (Z.ltb_spec 126 (byte_val b)); [lia|]. done. }
  by rewrite IH1.
Qed.

Lemma printable_absent (l : list byte) (x : byte) :
  Forall printable_byte l → byte_val x < 32 → x ∉ l.
Proof.
  intros Hl Hx Hin. rewrite Forall_forall in Hl.
  specialize (Hl x Hin). unfold printable_byte in Hl. lia.
Qed.

(** A short printable string without trailing whitespace is examined whole. *)
Lemma examined_clean (l : list byte) :
  Forall printable_byte l → (length l ≤ 13)%nat →
  (∀ b, last l = Some b → is_ascii_space b = false) →
  examined l = l.
Proof.
  intros Hp Hlen Hlast. unfold examined. cbv zeta.
  rewrite take_ge by done.
  rewrite (bytes_replace_absent l x0a) by (by apply printable_absent).
  rewrite (bytes_replace_absent l x0d) by (by apply printable_absent).
  rewrite bytes_find_absent by (by apply printable_absent).
  cbn [negb Z.eqb]. by apply rstrip_by_fixed.
Qed.

Lemma edid_parse_string_clean (l : list byte) :
  Forall printable_byte l → (length l ≤ 13)%nat →
  (∀ b, last l = Some b → is_ascii_space b = false) →
  edid_parse_string l = Ok (Some l).
Proof.
  intros Hp Hlen Hlast. rewrite edid_parse_string_eq.
  rewrite examined_clean by done.
  destruct (printable_dash_out l Hp) as [-> ->]. done.
Qed.

Lemma edid_parse_string_Some (desc out : list byte) :
  edid_parse_string desc = Ok (Some out) →
  out = map dash_out (examined desc).
Proof.
  rewrite edid_parse_string_eq. destruct (_ <=? 4); [|done]. by intros [= <-].
Qed.

Lemma sanitized_last (desc : list byte) (b : byte) :
  last (map dash_out (examined desc)) = Some b → is_ascii_space b = false.
Proof.
  change (map dash_out (examined desc)) with (dash_out <$> examined desc).
  rewrite fmap_last. destruct (last (examined desc)) as [c|] eqn:Hc; [|done].
  intros [= <-]. apply printable_not_space_dash.
  unfold examined in Hc. by apply rstrip_by_last in Hc.
Qed.

(** X6. A returned string is the dash-replaced form of a prefix of the
    input; it has at most 13 bytes and does not end with whitespace. *)
Theorem edid_parse_string_prefix (desc out : list byte) :
  edid_parse_string desc = Ok (Some out) →
  (∃ p, p `prefix_of` desc ∧ out = map dash_out p)
  ∧ (length out ≤ 13)%nat
  ∧ (length out ≤ length desc)%nat
  ∧ ∀ b, last out = Some b → is_ascii_space b = false.
Proof.
  intros ->%edid_parse_string_Some.
  pose proof (examined_prefix desc) as Hpre.
  pose proof (prefix_length _ _ Hpre) as Hlen.
  rewrite length_take in Hlen. rewrite length_map.
  split; [|split; [lia|split; [lia|apply sanitized_last]]].
  exists (examined desc). split; [|done].
  etransitivity; [exact Hpre|apply prefix_take].
Qed.

Lemma edid_parse_string_prefix_witness :
  (∃ p, p `prefix_of` [x41; x01; x20; x0a; x42] ∧ [x41; x2d] = map dash_out p)
  ∧ (length [x41; x2d] ≤ 13)%nat
  ∧ (length [x41; x2d] ≤ length [x41; x01; x20; x0a; x42])%nat
  ∧ ∀ b, last [x41; x2d] = Some b → is_ascii_space b = false.
Proof.
  apply (edid_parse_string_prefix [x41; x01; x20; x0a; x42] [x41; x2d]).
  vm_compute. reflexivity.
Defined.

(** X7. A string of at most 13 printable bytes that does not end with
    whitespace is returned unchanged. *)
Theorem edid_parse_string_identity (l : list byte) :
  Forall printable_byte l → (length l ≤ 13)%nat →
  (∀ b, last l = Some b → is_ascii_space b = false) →
  edid_parse_string l = Ok (Some l).
Proof. apply edid_parse_string_clean. Qed.

Lemma edid_parse_string_identity_witness :
  edid_parse_string [x44; x45; x4c; x4c] = Ok (Some [x44; x45; x4c; x4c]).
Proof.
  apply (edid_parse_string_identity [x44; x45; x4c; x4c]).
  - repeat constructor; vm_compute; discriminate.
  - cbn. lia.
  - intros b [= <-]. reflexivity.
Defined.

(** X8. Sanitizing is idempotent: a returned string is returned unchanged
    when it is sanitized again. *)
Theorem edid_parse_string_idempotent (desc out : list byte) :
  edid_parse_string desc = Ok (Some out) →
  edid_parse_string out = Ok (Some out).
Proof.
  intros ->%edid_parse_string_Some.
  apply edid_parse_string_clean.
  - apply dash_out_all_printable.
  - rewrite length_map.
    pose proof (prefix_length _ _ (examined_prefix desc)) as Hlen.
    rewrite length_take in Hlen. lia.
  - apply sanitized_last.
Qed.

Lemma edid_parse_string_idempotent_witness :
  edid_parse_string [x41; x2d] = Ok (Some [x41; x2d]).
Proof.
  apply (edid_parse_string_idempotent [x41; x01; x20; x0a; x42] [x41; x2d]).
  vm_compute. reflexivity.
Defined.

(** ** Manufacturer database *)

Lemma lstrip_by_split {A} (p : A → bool) (l : list A) :
  ∃ ws, l = ws ++ lstrip_by p l ∧ Forall (λ c, p c = true) ws
        ∧ ∀ c, head (lstrip_by p l) = Some c → p c = false.
Proof.
  induction l as [|c r (ws & Hr & Hws & Hhead)].
  - exists []. by split.
  - cbn [lstrip_by]. destruct (p c) eqn:Hc.
    + exists (c :: ws). split; [by rewrite Hr at 1|]. split; [by constructor|done].
    + exists []. split; [done|]. split; [done|]. by intros ? [= <-].
Qed.

Lemma span_word_split (s : pystr) :
  s = fst (span_word s) ++ snd (span_word s)
  ∧ Forall (λ c, is_unicode_space c = false) (fst (span_word s))
  ∧ ∀ c, head (snd (span_word s)) = Some c → is_unicode_space c = true.
Proof.
  induction s as [|c r (Hr & Hw & Hhead)]; [done|].
  cbn [span_word]. destruct (is_unicode_space c) eqn:Hc.
  - split; [done|]. split; [done|]. by intros ? [= <-].
  - destruct (span_word r) as [w rest]. cbn [fst snd] in *.
    split; [by rewrite Hr at 1|]. split; [by constructor|done].
Qed.

(** The shape of the result of [parse_pnpid_line]. *)
Lemma pnpid_line_shape (line : pystr) :
  parse_pnpid_line line = Ok (None, None)
  ∨ ∃ id name ws0 ws,
      parse_pnpid_line line = Ok (Some id, Some name)
      ∧ str_strip_chars (string_whitespace ++ [160%N]) line = ws0 ++ id ++ ws ++ name
      ∧ id ≠ [] ∧ name ≠ [] ∧ ws ≠ []
      ∧ Forall (λ c, is_unicode_space c = false) id
      ∧ Forall (λ c, is_unicode_space c = true) ws0
      ∧ Forall (λ c, is_unicode_space c = true) ws
      ∧ ∀ c, head name = Some c → is_unicode_space c = false.
Proof.
  unfold parse_pnpid_line, split_whitespace_once.
  set (s := str_strip_chars _ line).
  destruct (lstrip_by_split is_unicode_space s) as (ws0 & Hs & Hws0 & Hhead).
  destruct (lstrip_by is_unicode_space s) as [|c s1] eqn:Hs1; [by left|].
  destruct (span_word_split (c :: s1)) as (Hsplit & Hw & Hrest).
  destruct (span_word (c :: s1)) as [w rest]. cbn [fst snd] in *.
  destruct (lstrip_by_split is_unicode_space rest) as (ws & Hr & Hws & Htail).
  destruct (lstrip_by is_unicode_space rest) as [|t tail] eqn:Ht; [by left|].
  right. exists w, (t :: tail), ws0, ws.
  split; [done|]. split; [by rewrite Hs, Hsplit, Hr at 1|].
  assert (w ≠ []) as Hwne.
  { intros ->. cbn [app] in Hsplit. subst rest.
    specialize (Hhead c eq_refl). specialize (Hrest c eq_refl). congruence. }
  assert (ws ≠ []) as Hwsne.
  { intros ->. cbn [app] in Hr. subst rest.
    specialize (Hrest t eq_refl). specialize (Htail t eq_refl). congruence. }
  repeat split; try done.
Qed.

(** X9. [parse_pnpid_line] never raises. It yields either nothing or a code
    and a name that are both non-empty; the code holds no whitespace, the
    name does not start with whitespace, and the stripped line is the code,
    a non-empty run of whitespace and the name, after possible leading
    whitespace. *)
Theorem parse_pnpid_line_shape (line : pystr) :
  parse_pnpid_line line = Ok (None, None)
  ∨ ∃ id name ws0 ws,
      parse_pnpid_line line = Ok (Some id, Some name)
      ∧ str_strip_chars (string_whitespace ++ [160%N]) line = ws0 ++ id ++ ws ++ name
      ∧ id ≠ [] ∧ name ≠ [] ∧ ws ≠ []
      ∧ Forall (λ c, is_unicode_space c = false) id
      ∧ Forall (λ c, is_unicode_space c = true) ws0
      ∧ Forall (λ c, is_unicode_space c = true) ws
      ∧ ∀ c, head name = Some c → is_unicode_space c = false.
Proof. apply pnpid_line_shape. Qed.

Lemma parse_hwdb_line_one_part (line : pystr) (id name : option pystr) :
  parse_hwdb_line line = Ok (id, name) → id = None ∨ name = None.
Proof.
  unfold parse_hwdb_line.
  destruct (startswith _ _).
  - destruct (_ !! _); [|done]. intros [= <- <-]. by right.
  - destruct (startswith _ _).
    + destruct (_ !! _); [|done]. intros [= <- <-]. by left.
    + intros [= <- <-]. by left.
Qed.

Lemma parse_pnpid_file_hwdb (lines : list pystr) (path : pystr)
    (pnpidcache : cache) :
  endswith path (str "hwdb") = true →
  snd (parse_pnpid_file lines path pnpidcache) = pnpidcache.
Proof.
  intros Hpath. induction lines as [|line rest IH]; [done|].
  cbn [parse_pnpid_file]. rewrite Hpath.
  destruct (parse_hwdb_line line) as [[id name]|e] eqn:Hline; [|done].
  destruct (parse_hwdb_line_one_part line id name Hline) as [-> | ->].
  - exact IH.
  - unfold cache_add. by destruct id.
Qed.

(** X10. A file in the hwdb format never populates the cache: each of its
    lines yields a code or a name, never both, so nothing is inserted. *)
Theorem hwdb_never_populates (lines : list pystr) (path : pystr)
    (pnpidcache : cache) :
  endswith path (str "hwdb") = true →
  snd (parse_pnpid_file lines path pnpidcache) = pnpidcache.
Proof. apply parse_pnpid_file_hwdb. Qed.

Lemma hwdb_never_populates_witness :
  snd (parse_pnpid_file hwdb_lines hwdb_path ∅) = ∅.
Proof.
  apply (hwdb_never_populates hwdb_lines hwdb_path ∅). vm_compute. reflexivity.
Defined.

Lemma split_char_head (sep : N) (s : pystr) : ∃ w ws, split_char sep s = w :: ws.
Proof.
  destruct s as [|c r]; [by eexists _, _|]. cbn [split_char].
  destruct (c =? sep)%N; [by eexists _, _|].
  destruct (split_char sep r); by eexists _, _.
Qed.

Lemma split_char_second (sep : N) (s : pystr) :
  sep ∈ s → is_Some (split_char sep s !! 1%nat).
Proof.
  induction s as [|c r IH]; [by intros ?%elem_of_nil|].
  intros Hin. cbn [split_char]. destruct (N.eqb_spec c sep) as [->|Hne].
  - destruct (split_char_head sep r) as (w & ws & ->). by eexists.
  - apply elem_of_cons in Hin as [->|Hin]; [done|].
    specialize (IH Hin). destruct (split_char sep r) as [|w ws]; [|exact IH].
    by destruct IH.
Qed.

Lemma split_char_once_second (sep : N) (s : pystr) :
  is_Some (split_char_once sep s !! 1%nat) ↔ sep ∈ s.
Proof.
  induction s as [|c r IH].
  - cbn. split; [by intros [? ?]|by intros ?%elem_of_nil].
  - cbn [split_char_once]. destruct (N.eqb_spec c sep) as [->|Hne].
    + split; [intros _; left|by eexists].
    + rewrite elem_of_cons.
      destruct (split_char_once sep r) as [|w ws] eqn:Hr.
      * cbn in IH. split; [by intros [? ?]|].
        intros [->|Hin]; [done|]. by apply IH in Hin as [? ?].
      * cbn in *. rewrite IH. split; [by right|]. by intros [->|?].
Qed.

Lemma startswith_elem (s prefix : pystr) (c : N) :
  startswith s prefix = true → c ∈ prefix → c ∈ s.
Proof.
  revert s. induction prefix as [|p prefix IH]; intros s Hs Hc.
  - by apply elem_of_nil in Hc.
  - destruct s as [|x s]; [done|]. cbn [startswith] in Hs.
    apply andb_prop in Hs as [Hpx Hs]. apply N.eqb_eq in Hpx as ->.
    apply elem_of_cons in Hc as [->|Hc]; [left|right; by apply IH].
Qed.

Lemma lstrip_by_elem {A} (p : A → bool) (l : list A) (c : A) :
  c ∈ lstrip_by p l → c ∈ l.
Proof.
  induction l as [|x r IH]; [done|]. cbn [lstrip_by].
  destruct (p x); [|done]. intros Hc. right. by apply IH.
Qed.

Lemma str_strip_elem (s : pystr) (c : N) : c ∈ str_strip s → c ∈ s.
Proof.
  unfold str_strip. intros Hc. apply (lstrip_by_elem is_unicode_space).
  destruct (rstrip_by_prefix is_unicode_space (lstrip_by is_unicode_space s))
    as [k Hk].
  rewrite Hk. apply elem_of_app. by left.
Qed.

(** When [parse_hwdb_line] raises. *)
Lemma hwdb_line_raises (line : pystr) (e : pyexc) :
  parse_hwdb_line line = Raise e
  ↔ e = IndexError
    ∧ startswith (str_strip line) (str "acpi:") = false
    ∧ startswith (str_strip line) (str "ID_VENDOR_FROM_DATABASE") = true
    ∧ 61%N ∉ line.
Proof.
  unfold parse_hwdb_line.
  destruct (startswith (str_strip line) (str "acpi:")) eqn:Hacpi.
  - assert (58%N ∈ line) as Hcolon.
    { apply str_strip_elem. apply (startswith_elem _ _ _ Hacpi).
      vm_compute. set_solver. }
    pose proof (split_char_second 58 line Hcolon) as Hsome.
    unfold pystr in *.
    match goal with
    | |- context [match ?x with Some _ => _ | None => _ end] =>
        destruct x as [field|]
    end.
    + split; [done|]. by intros (_ & ? & _).
    + by destruct Hsome.
  - destruct (startswith (str_strip line) (str "ID_VENDOR_FROM_DATABASE")).
    + pose proof (split_char_once_second 61 line) as Hsplit.
      unfold pystr in *.
      match goal with
      | |- context [match ?x with Some _ => _ | None => _ end] =>
          destruct x as [field|]
      end.
      * split; [done|]. intros (_ & _ & _ & Hno). destruct Hno.
        apply Hsplit. by eexists.
      * split.
        -- intros [= <-]. repeat split; try done.
           intros Hin. apply Hsplit in Hin as [? ?]. done.
        -- by intros (-> & _).
    + split; [done|]. by intros (_ & _ & ? & _).
Qed.

(** X11. [parse_hwdb_line] raises only [IndexError], and exactly for a line
    that starts, after stripping, with [ID_VENDOR_FROM_DATABASE] (and not
    with [acpi:]) but holds no [=]. *)
Theorem parse_hwdb_line_raises (line : pystr) (e : pyexc) :
  parse_hwdb_line line = Raise e
  ↔ e = IndexError
    ∧ startswith (str_strip line) (str "acpi:") = false
    ∧ startswith (str_strip line) (str "ID_VENDOR_FROM_DATABASE") = true
    ∧ 61%N ∉ line.
Proof. apply hwdb_line_raises. Qed.

Lemma load_from_unreadable (host : Host) (paths : list pystr) (pnpidcache : cache) :
  Forall (λ p, readable host p = false) paths →
  load_from host paths pnpidcache = (Ok tt, pnpidcache).
Proof.
  induction 1 as [|p rest Hp _ IH]; [done|].
  cbn [load_from]. unfold readable in Hp.
  destruct (isfile host p); [|exact IH].
  destruct (open_lines host p) as [lines|]; [|exact IH].
  by cbn in Hp.
Qed.

Lemma load_from_first (host : Host) (skipped rest : list pystr) (path : pystr)
    (lines : list pystr) (pnpidcache : cache) :
  Forall (λ p, readable host p = false) skipped →
  isfile host path = true → open_lines host path = Some lines →
  load_from host (skipped ++ path :: rest) pnpidcache
  = parse_pnpid_file lines path pnpidcache.
Proof.
  intros Hskip Hfile Hopen.
  induction Hskip as [|p skipped Hp _ IH].
  - cbn [app load_from]. by rewrite Hfile, Hopen.
  - cbn [app load_from]. unfold readable in Hp.
    destruct (isfile host p); [|exact IH].
    destruct (open_lines host p) as [l|]; [|exact IH].
    by cbn in Hp.
Qed.

(** X12. Loading follows "the first readable file wins": paths that are no
    file or do not open are skipped, the first one that is a file and opens
    is parsed and no later path is consulted; when no path is readable the
    cache is left as it is and nothing is raised. *)
Theorem load_from_first_readable (host : Host) (pnpidcache : cache) :
  (∀ paths, Forall (λ p, readable host p = false) paths →
            load_from host paths pnpidcache = (Ok tt, pnpidcache))
  ∧ (∀ skipped path rest lines,
       Forall (λ p, readable host p = false) skipped →
       isfile host path = true → open_lines host path = Some lines →
       load_from host (skipped ++ path :: rest) pnpidcache
       = parse_pnpid_file lines path pnpidcache).
Proof.
  split.
  - intros paths. apply load_from_unreadable.
  - intros skipped path rest lines. apply load_from_first.
Qed.

Lemma load_from_first_readable_witness :
  load_from hwdata_host (hwdb_path :: pnp_ids_path :: [str "/usr/share/misc/pnp.ids"]) ∅
  = parse_pnpid_file pnp_ids_first pnp_ids_path ∅.
Proof.
  apply (proj2 (load_from_first_readable hwdata_host ∅)
           [hwdb_path] pnp_ids_path [str "/usr/share/misc/pnp.ids"] pnp_ids_first).
  - repeat constructor.
  - vm_compute. reflexivity.
  - vm_compute. reflexivity.
Defined.

Lemma load_from_keeps (host : Host) (paths : list pystr) (pnpidcache : cache)
    (code n : pystr) :
  pnpidcache !! code = Some n →
  snd (load_from host paths pnpidcache) !! code = Some n.
Proof.
  intros Hc. induction paths as [|p rest IH]; [done|].
  cbn [load_from]. destruct (isfile host p); [|exact IH].
  destruct (open_lines host p); [|exact IH].
  by apply parse_pnpid_file_keeps.
Qed.

Lemma get_manufacturer_name_stable (host : Host) (pnpidcache : cache)
    (id : pystr) (v : option pystr) :
  fst (get_manufacturer_name host id pnpidcache) = Ok v →
  let after := snd (get_manufacturer_name host id pnpidcache) in
  v = after !! id
  ∧ ∀ id', get_manufacturer_name host id' after = (Ok (after !! id'), after).
Proof.
  unfold get_manufacturer_name. case_bool_decide as Hempty.
  - subst pnpidcache.
    destruct (load_pnpidcache host ∅) as [r c] eqn:Hload. cbn [fst snd].
    destruct r as [[]|e]; [|done]. cbn [bind]. intros [= <-].
    split; [done|]. intros id'. case_bool_decide as Hc.
    + subst c. rewrite Hload. done.
    + done.
  - cbn [fst snd bind]. intros [= <-]. split; [done|]. intros id'.
    by rewrite bool_decide_eq_false_2.
Qed.

Lemma get_manufacturer_name_no_reload (host : Host) (pnpidcache : cache)
    (id : pystr) :
  pnpidcache ≠ ∅ →
  get_manufacturer_name host id pnpidcache = (Ok (pnpidcache !! id), pnpidcache).
Proof.
  intros Hne. unfold get_manufacturer_name. by rewrite bool_decide_eq_false_2.
Qed.

Lemma get_manufacturer_name_reload (host : Host) (id : pystr) :
  snd (get_manufacturer_name host id ∅) = snd (load_pnpidcache host ∅).
Proof.
  unfold get_manufacturer_name. rewrite bool_decide_eq_true_2 by done.
  by destruct (load_pnpidcache host ∅).
Qed.

(** X13. Once a lookup has returned, its value is the entry of the resulting
    cache. When that cache is not empty it is settled for good: every later
    lookup, whatever the files have become in the meantime, returns the entry
    of that cache for its code and leaves the cache unchanged. When it is
    empty every later lookup scans the files again, so that its cache is what
    loading from the files of that moment gives; with the files as they were
    it returns nothing and leaves the cache empty. *)
Theorem get_manufacturer_name_settled (host : Host) (pnpidcache : cache)
    (id : pystr) (v : option pystr) :
  fst (get_manufacturer_name host id pnpidcache) = Ok v →
  let after := snd (get_manufacturer_name host id pnpidcache) in
  v = after !! id
  ∧ (after ≠ ∅ →
     ∀ later id',
       get_manufacturer_name later id' after = (Ok (after !! id'), after))
  ∧ (after = ∅ →
     (∀ later id',
        snd (get_manufacturer_name later id' after)
        = snd (load_pnpidcache later ∅))
     ∧ ∀ id', get_manufacturer_name host id' after = (Ok None, ∅)).
Proof.
  intros Hv after.
  destruct (get_manufacturer_name_stable host pnpidcache id v Hv) as [Hid Hsame].
  fold after in Hid, Hsame.
  split; [exact Hid|]. split.
  - intros Hne later id'. by apply get_manufacturer_name_no_reload.
  - intros Hempty. split.
    + intros later id'. rewrite Hempty. apply get_manufacturer_name_reload.
    + intros id'. rewrite (Hsame id'), Hempty. by rewrite lookup_empty.
Qed.

Lemma get_manufacturer_name_settled_witness :
  let after := snd (get_manufacturer_name hwdata_host (str "SAM") ∅) in
  Some (str "Samsung Electric Company") = after !! str "SAM"
  ∧ ∀ id', get_manufacturer_name bare_host id' after = (Ok (after !! id'), after).
Proof.
  destruct (get_manufacturer_name_settled hwdata_host ∅ (str "SAM")
              (Some (str "Samsung Electric Company")))
    as (Hv & Hsettled & _); [vm_compute; reflexivity|].
  split; [exact Hv|].
  intros id'. apply Hsettled.
  intros Hempty. rewrite Hempty, lookup_empty in Hv. discriminate Hv.
Defined.

(** ** Decoder: the record in closed form *)

Lemma slice_lookup {A} (l : list A) (start stop i : nat) :
  (i < stop - start)%nat → slice l start stop !! i = l !! (start + i)%nat.
Proof.
  intros Hi. unfold slice. by rewrite lookup_take_lt, lookup_drop.
Qed.

Lemma slice_byte (edid : list byte) (start stop i : nat) (b : byte) :
  (i < stop - start)%nat → slice edid start stop !! i = Some b →
  byte_val b = byte_at edid (start + i).
Proof.
  intros Hi Hb. rewrite slice_lookup in Hb by done.
  unfold byte_at. by rewrite Hb.
Qed.

Lemma basic_display_parameters_eq (edid : list byte) :
  (128 ≤ length edid)%nat →
  parse_edid_basic_display_parameters edid = Ok (basic_record edid).
Proof.
  intros Hlen. unfold parse_edid_basic_display_parameters, basic_record.
  destruct (list_of_length_2 (slice edid (fst PRODUCT_ID) (snd PRODUCT_ID)))
    as (p0 & p1 & Hp); [layout; rewrite length_slice; lia|].
  destruct (list_of_length_4 (slice edid (fst SERIAL_32) (snd SERIAL_32)))
    as (s0 & s1 & s2 & s3 & Hs); [layout; rewrite length_slice; lia|].
  rewrite Hp, Hs. unfold PRODUCT_ID, SERIAL_32 in Hp, Hs. cbn [fst snd] in Hp, Hs.
  rewrite !getitem_lt by (layout; lia).
  cbn [unpack_H unpack_I bind py_ne py_eq negb].
  rewrite (slice_byte edid 10 12 0 p0), (slice_byte edid 10 12 1 p1),
    (slice_byte edid 12 16 0 s0), (slice_byte edid 12 16 1 s1),
    (slice_byte edid 12 16 2 s2), (slice_byte edid 12 16 3 s3)
    by (try lia; by rewrite ?Hp, ?Hs).
  reflexivity.
Qed.

Lemma chromaticity_coordinates_eq (edid : list byte) :
  (128 ≤ length edid)%nat →
  parse_edid_chromaticity_coordinates edid = Ok (chroma_record edid).
Proof.
  intros Hlen. unfold parse_edid_chromaticity_coordinates.
  rewrite !chroma_returns by (layout; lia). reflexivity.
Qed.

Lemma extension_blocks_eq (edid : list byte) :
  (128 ≤ length edid)%nat →
  parse_edid_extension_blocks edid = Ok (extension_record edid).
Proof.
  intros Hlen. unfold parse_edid_extension_blocks.
  rewrite !getitem_lt by (layout; lia). cbn [bind].
  rewrite walk_extension_blocks_returns. by destruct (_ && _).
Qed.

Lemma parse_edid_header_eq (host : Host) (pnpidcache : cache) (edid : list byte) :
  (128 ≤ length edid)%nat →
  parse_edid_header host edid pnpidcache
  = (bind (fst (get_manufacturer_name host (manufacturer_id_of edid) pnpidcache))
       (λ m, Ok (header_record host edid m)),
     snd (get_manufacturer_name host (manufacturer_id_of edid) pnpidcache)).
Proof.
  intros Hlen. unfold parse_edid_header.
  destruct (list_of_length_2
              (slice edid (fst MANUFACTURER_ID) (snd MANUFACTURER_ID)))
    as (b0 & b1 & Hb); [layout; rewrite length_slice; lia|].
  rewrite Hb, parse_manufacturer_id_chars.
  unfold MANUFACTURER_ID in Hb. cbn [fst snd] in Hb.
  rewrite (slice_byte edid 8 10 0 b0), (slice_byte edid 8 10 1 b1)
    by (try lia; by rewrite Hb).
  cbn [Nat.add]. fold (manufacturer_id_of edid).
  destruct (get_manufacturer_name host (manufacturer_id_of edid) pnpidcache)
    as [r c].
  cbn [fst snd]. destruct r as [m|e]; [|reflexivity]. cbn [bind].
  unfold header_record, HEADER, slice. cbn [fst snd].
  rewrite Nat.sub_0_r, drop_0. reflexivity.
Qed.

(** The record of [parse_edid] as the union of the dicts of its steps. *)
Lemma parse_edid_eq (host : Host) (pnpidcache : cache) (edid : pyval)
    (b : list byte) :
  database_loads host pnpidcache → normalize edid = Ok b → (128 ≤ length b)%nat →
  ∃ m desc,
    fst (get_manufacturer_name host (manufacturer_id_of b) pnpidcache) = Ok m
    ∧ parse_edid_descriptor_blocks b = Ok desc
    ∧ fst (parse_edid host edid pnpidcache)
      = Ok (extension_record b ∪ (desc ∪ (chroma_record b ∪ (basic_record b
              ∪ header_record host b m)))).
Proof.
  intros Hdb Hnorm Hlen. unfold parse_edid. rewrite Hnorm.
  rewrite parse_edid_header_eq by done.
  destruct (get_manufacturer_name_returns host pnpidcache
              (manufacturer_id_of b) Hdb) as [m Hm].
  destruct (descriptor_blocks_return b Hlen) as [desc Hdesc].
  exists m, desc. split; [done|]. split; [done|].
  cbn [fst]. rewrite Hm. cbn [bind].
  rewrite basic_display_parameters_eq, chromaticity_coordinates_eq,
    Hdesc, extension_blocks_eq by done.
  reflexivity.
Qed.

Ltac not_text_key :=
  let H := fresh in
  unfold text_keys; intros H;
  repeat (apply elem_of_cons in H as [H|H]; [discriminate H|]);
  by apply elem_of_nil in H.

Ltac insert_chain :=
  rewrite ?lookup_insert_ne by done;
  first [ rewrite lookup_insert_eq; reflexivity | apply lookup_empty ].

(** A key outside the text keys is looked up in the dicts of the fixed
    steps, the later step first. *)
Lemma record_lookup_fixed (ext desc chroma basic hdr : record) (key : string) :
  key ∉ text_keys → (∀ k, k ∉ text_keys → desc !! k = None) →
  (ext ∪ (desc ∪ (chroma ∪ (basic ∪ hdr)))) !! key
  = match ext !! key with
    | Some v => Some v
    | None =>
        match chroma !! key with
        | Some v => Some v
        | None =>
            match basic !! key with
            | Some v => Some v
            | None => hdr !! key
            end
        end
    end.
Proof.
  intros Hkey Hdesc. rewrite !lookup_union, (Hdesc key Hkey).
  destruct (ext !! key), (chroma !! key), (basic !! key), (hdr !! key); done.
Qed.

Lemma byte_at_range (b : list byte) (i : nat) : 0 ≤ byte_at b i < 256.
Proof. apply byte_val_range. Qed.

(** X14. The basic display parameters of the record of [parse_edid]: the
    product id and the serial number are the little-endian values of the
    bytes at offsets 10..11 and 12..15, the year is the byte at offset 17
    plus 1990, the other entries are the bytes at their offsets, and [gamma]
    is the byte at offset 23 divided by 100.0 plus 1. *)
Theorem parse_edid_basic_fields (host : Host) (pnpidcache : cache) (edid : pyval)
    (b : list byte) :
  database_loads host pnpidcache → normalize edid = Ok b → (128 ≤ length b)%nat →
  ∃ r, fst (parse_edid host edid pnpidcache) = Ok r
    ∧ r !! "product_id" = Some (PyInt (byte_at b 10 + 256 * byte_at b 11))
    ∧ r !! "serial_32"
      = Some (PyInt (byte_at b 12 + 256 * byte_at b 13 + 65536 * byte_at b 14
                     + 16777216 * byte_at b 15))
    ∧ r !! "week_of_manufacture" = Some (PyInt (byte_at b 16))
    ∧ r !! "year_of_manufacture" = Some (PyInt (byte_at b 17 + 1990))
    ∧ r !! "edid_version" = Some (PyInt (byte_at b 18))
    ∧ r !! "edid_revision" = Some (PyInt (byte_at b 19))
    ∧ r !! "max_h_size_cm" = Some (PyInt (byte_at b 21))
    ∧ r !! "max_v_size_cm" = Some (PyInt (byte_at b 22))
    ∧ r !! "gamma" = Some (PyFloat (gamma_of (byte_at b 23)))
    ∧ r !! "features" = Some (PyInt (byte_at b 24))
    ∧ 0 ≤ byte_at b 10 + 256 * byte_at b 11 < 65536
    ∧ 0 ≤ byte_at b 12 + 256 * byte_at b 13 + 65536 * byte_at b 14
          + 16777216 * byte_at b 15 < 4294967296
    ∧ 1990 ≤ byte_at b 17 + 1990 ≤ 2245.
Proof.
  intros Hdb Hnorm Hlen.
  destruct (parse_edid_eq host pnpidcache edid b Hdb Hnorm Hlen)
    as (m & desc & _ & Hdesc & ->).
  eexists. split; [reflexivity|].
  pose proof (λ k Hk, descriptor_blocks_only_text b desc k Hk Hdesc) as Hnone.
  repeat (split; [rewrite record_lookup_fixed by (done || not_text_key);
                  unfold extension_record, chroma_record, basic_record;
                  by repeat (rewrite lookup_insert_ne by done)
                     || (rewrite ?lookup_empty, ?lookup_insert_eq)|]).
  pose proof (byte_at_range b 10). pose proof (byte_at_range b 11).
  pose proof (byte_at_range b 12). pose proof (byte_at_range b 13).
  pose proof (byte_at_range b 14). pose proof (byte_at_range b 15).
  pose proof (byte_at_range b 17). lia.
Qed.

Lemma bare_host_loads : database_loads bare_host ∅.
Proof. right. vm_compute. reflexivity. Qed.

Lemma gamma_ff_edid_normal : normalize (PyBytes gamma_ff_edid) = Ok gamma_ff_edid.
Proof. apply normalize_standard. apply list_elem_of_here. Qed.

Lemma gamma_ff_edid_length : (128 ≤ length gamma_ff_edid)%nat.
Proof. vm_compute. lia. Qed.

Lemma parse_edid_basic_fields_witness :
  ∃ r, fst (parse_edid bare_host (PyBytes gamma_ff_edid) ∅) = Ok r
    ∧ r !! "year_of_manufacture" = Some (PyInt (byte_at gamma_ff_edid 17 + 1990))
    ∧ r !! "gamma" = Some (PyFloat (gamma_of (byte_at gamma_ff_edid 23))).
Proof.
  destruct (parse_edid_basic_fields bare_host ∅ (PyBytes gamma_ff_edid)
              gamma_ff_edid bare_host_loads gamma_ff_edid_normal
              gamma_ff_edid_length)
    as (r & Hr & _ & _ & _ & Hyear & _ & _ & _ & _ & Hgamma & _).
  exists r. split; [exact Hr|]. split; [exact Hyear|exact Hgamma].
Defined.

Lemma chroma_value_exact (edid : list byte) (hi lo : nat) (b e : Z) :
  (b, e) ∈ [(6, 7); (4, 5); (2, 3); (0, 1)] →
  ∃ q, float_exact (chroma_value edid hi lo b e) = Some q
       ∧ (0 <= q)%Q ∧ (q < 1)%Q
       ∧ (q == Z.lor (Z.shiftl (byte_at edid hi) 2)
                 (edid_get_bits (byte_at edid lo) b e) # 1024)%Q.
Proof.
  intros Hbe. unfold chroma_value.
  assert (0 ≤ edid_get_bits (byte_at edid lo) b e < 4) as Hbits.
  { set_unfold in Hbe.
    destruct Hbe as [[= -> ->]|[[= -> ->]|[[= -> ->]|[[= -> ->]|[]]]]];
      match goal with
      | |- _ ≤ edid_get_bits ?v ?x ?y < _ =>
          destruct (get_bits_div_mod v x y) as [_ H]; [lia..|exact H]
      end. }
  destruct (fraction_exact (byte_at edid hi)
              (edid_get_bits (byte_at edid lo) b e) (byte_at_range _ _) Hbits)
    as (q & Hq & _ & Hdiv & H0 & H1 & _).
  exists q. done.
Qed.

(** X15. The eight chromaticity entries of the record: each is the fraction
    decoded from its high byte and its two low bits, a float that stands for
    the rational [((high << 2) | bits) / 1024] and lies in [0, 1). *)
Theorem parse_edid_chromaticity_fields (host : Host) (pnpidcache : cache)
    (edid : pyval) (b : list byte) :
  database_loads host pnpidcache → normalize edid = Ok b → (128 ≤ length b)%nat →
  ∃ r, fst (parse_edid host edid pnpidcache) = Ok r
    ∧ ∀ key hi lo bit_from bit_to,
        (key, (hi, lo), (bit_from, bit_to)) ∈ chroma_layout →
        ∃ q, r !! key = Some (PyFloat (chroma_value b hi lo bit_from bit_to))
          ∧ float_exact (chroma_value b hi lo bit_from bit_to) = Some q
          ∧ (0 <= q)%Q ∧ (q < 1)%Q
          ∧ (q == Z.lor (Z.shiftl (byte_at b hi) 2)
                    (edid_get_bits (byte_at b lo) bit_from bit_to) # 1024)%Q.
Proof.
  intros Hdb Hnorm Hlen.
  destruct (parse_edid_eq host pnpidcache edid b Hdb Hnorm Hlen)
    as (m & desc & _ & Hdesc & ->).
  eexists. split; [reflexivity|].
  pose proof (λ k Hk, descriptor_blocks_only_text b desc k Hk Hdesc) as Hnone.
  intros key hi lo bit_from bit_to Hin.
  unfold chroma_layout in Hin. set_unfold in Hin.
  destruct Hin as [Hin|[Hin|[Hin|[Hin|[Hin|[Hin|[Hin|[Hin|[]]]]]]]]];
    injection Hin as -> -> -> -> ->;
    (match goal with
     | |- ∃ q, _ !! _ = Some (PyFloat (chroma_value ?e ?h ?l ?x ?y)) ∧ _ =>
         destruct (chroma_value_exact e h l x y) as (q & Hq);
         [set_unfold; auto 10|exists q; split; [|exact Hq]]
     end);
    rewrite record_lookup_fixed by (done || not_text_key);
    unfold extension_record, chroma_record;
    by repeat (rewrite lookup_insert_ne by done)
       || (rewrite ?lookup_empty, ?lookup_insert_eq).
Qed.

Lemma parse_edid_chromaticity_fields_witness :
  ∃ r, fst (parse_edid bare_host (PyBytes gamma_ff_edid) ∅) = Ok r
    ∧ ∃ q, r !! "red_x"
           = Some (PyFloat (chroma_value gamma_ff_edid HI_R_X LO_RG_XY 6 7))
        ∧ float_exact (chroma_value gamma_ff_edid HI_R_X LO_RG_XY 6 7) = Some q
        ∧ (0 <= q)%Q ∧ (q < 1)%Q.
Proof.
  destruct (parse_edid_chromaticity_fields bare_host ∅ (PyBytes gamma_ff_edid)
              gamma_ff_edid bare_host_loads gamma_ff_edid_normal
              gamma_ff_edid_length) as (r & Hr & Hall).
  exists r. split; [exact Hr|].
  destruct (Hall "red_x" HI_R_X LO_RG_XY 6 7) as (q & H1 & H2 & H3 & H4 & _).
  { apply list_elem_of_here. }
  exists q. done.
Defined.

Lemma header_record_lookup (host : Host) (b : list byte) (m : option pystr) :
  header_record host b m !! "edid" = Some (PyBytes b)
  ∧ header_record host b m !! "hash" = Some (PyStr (md5_hexdigest host b))
  ∧ header_record host b m !! "header" = Some (PyBytes (take 8 b))
  ∧ header_record host b m !! "manufacturer_id"
    = Some (PyStr (manufacturer_id_of b))
  ∧ header_record host b m !! "manufacturer"
    = (if truthy m then PyStr <$> m else None).
Proof.
  unfold header_record. destruct m as [[|c s]|]; cbn [truthy default fmap option_fmap option_map];
    repeat split;
    by repeat (rewrite lookup_insert_ne by done)
       || (rewrite ?lookup_empty, ?lookup_insert_eq).
Qed.

(** X16. The identity entries of the record: [edid] is the decoded buffer,
    [header] its first 8 bytes, [hash] the MD5 digest of the buffer,
    [manufacturer_id] the id decoded from the bytes at offsets 8 and 9; and
    [manufacturer] is the name the database holds for that id, present
    exactly when that name exists and is not empty. *)
Theorem parse_edid_identity_fields (host : Host) (pnpidcache : cache)
    (edid : pyval) (b : list byte) :
  database_loads host pnpidcache → normalize edid = Ok b → (128 ≤ length b)%nat →
  let id := manufacturer_id_of b in
  let after := snd (get_manufacturer_name host id pnpidcache) in
  ∃ r, fst (parse_edid host edid pnpidcache) = Ok r
    ∧ r !! "edid" = Some (PyBytes b)
    ∧ r !! "hash" = Some (PyStr (md5_hexdigest host b))
    ∧ r !! "header" = Some (PyBytes (take 8 b))
    ∧ r !! "manufacturer_id" = Some (PyStr id)
    ∧ r !! "manufacturer"
      = (if truthy (after !! id) then PyStr <$> (after !! id) else None).
Proof.
  intros Hdb Hnorm Hlen id after.
  destruct (parse_edid_eq host pnpidcache edid b Hdb Hnorm Hlen)
    as (m & desc & Hm & Hdesc & ->).
  destruct (get_manufacturer_name_stable host pnpidcache id m Hm) as [Hafter _].
  fold after in Hafter. rewrite <- Hafter.
  eexists. split; [reflexivity|].
  pose proof (λ k Hk, descriptor_blocks_only_text b desc k Hk Hdesc) as Hnone.
  destruct (header_record_lookup host b m) as (H1 & H2 & H3 & H4 & H5).
  repeat split;
    rewrite record_lookup_fixed by (done || not_text_key);
    unfold extension_record, chroma_record, basic_record;
    rewrite !lookup_insert_ne by done; by rewrite !lookup_empty.
Qed.

Lemma parse_edid_identity_fields_witness :
  ∃ r, fst (parse_edid bare_host (PyBytes gamma_ff_edid) ∅) = Ok r
    ∧ r !! "edid" = Some (PyBytes gamma_ff_edid)
    ∧ r !! "header" = Some (PyBytes (take 8 gamma_ff_edid)).
Proof.
  destruct (parse_edid_identity_fields bare_host ∅ (PyBytes gamma_ff_edid)
              gamma_ff_edid bare_host_loads gamma_ff_edid_normal
              gamma_ff_edid_length) as (r & Hr & Hedid & _ & Hheader & _).
  exists r. done.
Defined.

Ltac key_in_list :=
  unfold mandatory_keys, text_keys; cbn [app];
  repeat first [apply list_elem_of_here | apply list_elem_of_further].

Lemma descriptor_keys (b : list byte) (desc : record) (k : string) :
  parse_edid_descriptor_blocks b = Ok desc → is_Some (desc !! k) → k ∈ text_keys.
Proof.
  intros Hdesc Hk. destruct (decide (k ∈ text_keys)) as [|Hno]; [done|].
  rewrite (descriptor_blocks_only_text b desc k Hno Hdesc) in Hk.
  by destruct Hk.
Qed.

(** X17. The keys of the record: every mandatory key, [gamma] included, is
    present, and no key occurs besides the mandatory ones, [manufacturer]
    and the three text keys; in particular no color-point, color-management
    or extension entry. *)
Theorem parse_edid_keys (host : Host) (pnpidcache : cache) (edid : pyval)
    (b : list byte) :
  database_loads host pnpidcache → normalize edid = Ok b → (128 ≤ length b)%nat →
  ∃ r, fst (parse_edid host edid pnpidcache) = Ok r
    ∧ Forall (λ k, is_Some (r !! k)) mandatory_keys
    ∧ ∀ k, is_Some (r !! k) →
           k ∈ mandatory_keys ++ "manufacturer" :: text_keys.
Proof.
  intros Hdb Hnorm Hlen.
  destruct (parse_edid_eq host pnpidcache edid b Hdb Hnorm Hlen)
    as (m & desc & _ & Hdesc & ->).
  eexists. split; [reflexivity|].
  pose proof (λ k Hk, descriptor_blocks_only_text b desc k Hk Hdesc) as Hnone.
  destruct (header_record_lookup host b m) as (H1 & H2 & H3 & H4 & _).
  split.
  - unfold mandatory_keys.
    repeat (apply Forall_cons; split;
            [rewrite record_lookup_fixed by (done || not_text_key);
             unfold extension_record, chroma_record, basic_record;
             repeat (rewrite lookup_insert_ne by done);
             rewrite ?lookup_insert_eq, ?lookup_empty, ?H1, ?H2, ?H3, ?H4;
             by eexists|]).
    apply Forall_nil_2.
  - intros k Hk. rewrite !lookup_union_is_Some in Hk.
    destruct Hk as [Hk|[Hk|[Hk|[Hk|Hk]]]].
    + unfold extension_record in Hk.
      rewrite !lookup_insert_is_Some', lookup_empty in Hk.
      destruct Hk as [<-|[<-|[<-|[? [=]]]]]; key_in_list.
    + apply (descriptor_keys b desc k Hdesc) in Hk.
      apply elem_of_app. right. by right.
    + unfold chroma_record in Hk.
      rewrite !lookup_insert_is_Some', lookup_empty in Hk.
      destruct Hk as [<-|[<-|[<-|[<-|[<-|[<-|[<-|[<-|[? [=]]]]]]]]]];
        key_in_list.
    + unfold basic_record in Hk.
      rewrite !lookup_insert_is_Some', lookup_empty in Hk.
      destruct Hk as [<-|[<-|[<-|[<-|[<-|[<-|[<-|[<-|[<-|[<-|[? [=]]]]]]]]]]]];
        key_in_list.
    + unfold header_record in Hk. destruct (truthy m);
        rewrite !lookup_insert_is_Some', lookup_empty in Hk.
      * destruct Hk as [<-|[<-|[<-|[<-|[<-|[? [=]]]]]]]; key_in_list.
      * destruct Hk as [<-|[<-|[<-|[<-|[? [=]]]]]]; key_in_list.
Qed.

Lemma parse_edid_keys_witness :
  ∃ r, fst (parse_edid bare_host (PyBytes gamma_ff_edid) ∅) = Ok r
    ∧ Forall (λ k, is_Some (r !! k)) mandatory_keys
    ∧ ∀ k, is_Some (r !! k) →
           k ∈ mandatory_keys ++ "manufacturer" :: text_keys.
Proof.
  apply (parse_edid_keys bare_host ∅ (PyBytes gamma_ff_edid) gamma_ff_edid
           bare_host_loads gamma_ff_edid_normal gamma_ff_edid_length).
Defined.

(** ** Extension blocks and checksum *)

Lemma getitem_ge (b : list byte) (i : nat) :
  (length b ≤ i)%nat → getitem b i = Raise IndexError.
Proof.
  intros Hi. unfold getitem. by rewrite lookup_ge_None_2.
Qed.

(** X18. [parse_edid_extension_blocks] returns exactly when the buffer has
    at least 128 bytes, and raises [IndexError] otherwise. Its dict then
    holds [ext_flag], [checksum] and [checksum_valid] and nothing else,
    whatever the extension flag and whatever follows the base block: the
    pages are walked without being decoded, and a truncated page raises
    nothing. *)
Theorem parse_edid_extension_blocks_total (edid : list byte) :
  ((128 ≤ length edid)%nat →
   parse_edid_extension_blocks edid = Ok (extension_record edid))
  ∧ ((length edid < 128)%nat →
     parse_edid_extension_blocks edid = Raise IndexError).
Proof.
  split; [apply extension_blocks_eq|].
  intros Hlen. unfold parse_edid_extension_blocks.
  destruct (decide (length edid ≤ EXTENSION_FLAG)%nat) as [Hle|Hgt].
  - by rewrite (getitem_ge edid EXTENSION_FLAG).
  - rewrite (getitem_lt edid EXTENSION_FLAG) by lia. cbn [bind].
    rewrite (getitem_ge edid CHECKSUM); [done|]. layout. lia.
Qed.

Lemma parse_edid_extension_blocks_total_witness :
  parse_edid_extension_blocks gamma_ff_edid = Ok (extension_record gamma_ff_edid)
  ∧ parse_edid_extension_blocks (replicate 127 x00) = Raise IndexError.
Proof.
  split.
  - apply (proj1 (parse_edid_extension_blocks_total gamma_ff_edid)).
    vm_compute. lia.
  - apply (proj2 (parse_edid_extension_blocks_total (replicate 127 x00))).
    vm_compute. lia.
Defined.

Lemma byte_sum_from (l : list byte) (acc : Z) :
  fold_left (λ acc b, acc + byte_val b) l acc = acc + byte_sum l.
Proof.
  unfold byte_sum. revert acc. induction l as [|b l IH]; intros acc.
  - cbn. lia.
  - cbn [fold_left]. rewrite IH, (IH (0 + byte_val b)). lia.
Qed.

Lemma byte_sum_app (a b : list byte) : byte_sum (a ++ b) = byte_sum a + byte_sum b.
Proof.
  unfold byte_sum at 1. rewrite fold_left_app. fold (byte_sum a).
  apply byte_sum_from.
Qed.

Lemma byte_sum_single (x : byte) : byte_sum [x] = byte_val x.
Proof. reflexivity. Qed.

(** X19. The checksum byte that makes a base block valid: for 127 bytes
    followed by a byte [x], [checksum] is [x] and [checksum_valid] is true
    exactly when [x] is the negated sum of the 127 bytes modulo 256. *)
Theorem checksum_byte_completes (p : list byte) (x : byte) :
  length p = 127%nat →
  parse_edid_extension_blocks (p ++ [x]) = Ok (extension_record (p ++ [x]))
  ∧ extension_record (p ++ [x]) !! "checksum" = Some (PyInt (byte_val x))
  ∧ (extension_record (p ++ [x]) !! "checksum_valid" = Some (PyBool true)
     ↔ byte_val x = (- byte_sum p) mod 256).
Proof.
  intros Hlen. split; [|split].
  - apply extension_blocks_eq. rewrite length_app. cbn. lia.
  - unfold extension_record. rewrite lookup_insert_ne by done.
    rewrite lookup_insert_eq. unfold byte_at, CHECKSUM.
    rewrite <- Hlen. by rewrite list_lookup_middle.
  - unfold extension_record. rewrite lookup_insert_eq.
    rewrite byte_sum_app, byte_sum_single.
    pose proof (byte_val_range x) as Hx.
    split.
    + intros [= Hv]. apply Z.eqb_eq in Hv.
      apply Z.mod_divide in Hv as [k Hk]; [|lia].
      replace (- byte_sum p) with (byte_val x + (- k) * 256) by lia.
      rewrite Z.mod_add by lia. by rewrite Z.mod_small.
    + intros Hv. do 2 f_equal. apply Z.eqb_eq.
      rewrite Hv. rewrite Zplus_mod_idemp_r.
      replace (byte_sum p + - byte_sum p) with 0 by lia. done.
Qed.

Lemma checksum_byte_completes_witness :
  extension_record (replicate 127 x01 ++ [x81]) !! "checksum_valid"
    = Some (PyBool true)
  ↔ byte_val x81 = (- byte_sum (replicate 127 x01)) mod 256.
Proof.
  apply (checksum_byte_completes (replicate 127 x01) x81). reflexivity.
Defined.

(** X20. The checksum runs over the whole buffer, so it is additive over
    pages: for a base block followed by extension pages, [checksum_valid] is
    true exactly when the sums of the two parts add up to 0 modulo 256; in
    particular it is true when each part sums to 0 modulo 256. *)
Theorem checksum_valid_pages (base pages : list byte) :
  (128 ≤ length base)%nat →
  parse_edid_extension_blocks (base ++ pages)
  = Ok (extension_record (base ++ pages))
  ∧ extension_record (base ++ pages) !! "checksum_valid"
    = Some (PyBool ((byte_sum base + byte_sum pages) mod 256 =? 0))
  ∧ (byte_sum base mod 256 = 0 → byte_sum pages mod 256 = 0 →
     extension_record (base ++ pages) !! "checksum_valid" = Some (PyBool true)).
Proof.
  intros Hlen.
  assert (extension_record (base ++ pages) !! "checksum_valid"
          = Some (PyBool ((byte_sum base + byte_sum pages) mod 256 =? 0))) as Hv.
  { unfold extension_record. rewrite lookup_insert_eq. by rewrite byte_sum_app. }
  split; [|split; [exact Hv|]].
  - apply extension_blocks_eq. rewrite length_app. lia.
  - intros Hb Hp. rewrite Hv. do 2 f_equal. apply Z.eqb_eq.
    rewrite Z.add_mod by lia. by rewrite Hb, Hp.
Qed.

Lemma checksum_valid_pages_witness :
  extension_record (replicate 128 x00 ++ replicate 128 x02) !! "checksum_valid"
  = Some (PyBool true).
Proof.
  apply (checksum_valid_pages (replicate 128 x00) (replicate 128 x02)).
  - vm_compute. lia.
  - reflexivity.
  - reflexivity.
Defined.

(** ** Text descriptors *)

Lemma utf8_decode_ascii_eq (d : list byte) :
  Forall (λ b, byte_val b < 128) d → utf8_decode d = Ok (ascii_text d).
Proof.
  induction 1 as [|b d Hb _ IH]; [done|].
  cbn [utf8_decode]. destruct (Z.ltb_spec (byte_val b) 128); [|lia].
  by rewrite IH.
Qed.

Lemma descriptor_step_eq (edid : list byte) (result : record) (start stop : nat) :
  (stop ≤ length edid)%nat → (stop - start = 18)%nat →
  descriptor_step edid (Ok result) (start, stop)
  = Ok match slot_text edid (start, stop) with
       | Some (key, text) => <[key := PyStr text]> result
       | None => result
       end.
Proof.
  intros Hstop Hsize. unfold descriptor_step, slot_text. cbn [bind fst snd].
  set (block := slice edid start stop).
  assert (length block = 18%nat) as Hblock
    by (unfold block; rewrite length_slice; lia).
  unfold py_ne, py_eq. destruct (bool_decide _); cbn [negb]; [|done].
  destruct (text_types_get _) as [text_type|].
  - rewrite edid_parse_string_eq. cbn [bind].
    destruct (_ <=? 4); [|done].
    rewrite utf8_decode_ascii_eq; [done|].
    apply printable_is_ascii, dash_out_all_printable.
  - rewrite !getitem_lt by (layout; lia). cbn [bind].
    by rewrite ?int_ne_bytes.
Qed.

Lemma descriptor_blocks_eq (edid : list byte) :
  (128 ≤ length edid)%nat →
  parse_edid_descriptor_blocks edid
  = Ok (fold_left
          (λ result bounds,
            match slot_text edid bounds with
            | Some (key, text) => <[key := PyStr text]> result
            | None => result
            end)
          BLOCKS ∅).
Proof.
  intros Hlen. unfold parse_edid_descriptor_blocks, BLOCKS. cbn [fold_left].
  by rewrite !descriptor_step_eq by lia.
Qed.

(** Folding the slots into a dict: the last slot that contributes to a key
    decides its entry. *)
Lemma fold_slots_lookup (edid : list byte) (slots : list (nat * nat))
    (r0 : record) (key : string) :
  fold_left
    (λ result bounds,
      match slot_text edid bounds with
      | Some (k, text) => <[k := PyStr text]> result
      | None => result
      end) slots r0 !! key
  = match last (omap (slot_entry edid key) slots) with
    | Some text => Some (PyStr text)
    | None => r0 !! key
    end.
Proof.
  revert r0. induction slots as [|bounds slots IH]; intros r0; [done|].
  cbn [fold_left omap list_omap]. rewrite IH. unfold slot_entry at 2.
  destruct (slot_text edid bounds) as [[k text]|].
  - case_bool_decide as Hk.
    + subst k. destruct (omap (slot_entry edid key) slots) as [|x l] eqn:Hl.
      * cbn. by rewrite lookup_insert_eq.
      * rewrite last_cons_cons. destruct (last (x :: l)) eqn:Hlast; [done|].
        by apply last_None in Hlast.
    + destruct (last _); [done|]. by rewrite lookup_insert_ne.
  - done.
Qed.

(** X21. Text descriptors are last-wins: the entry of a text key
    ([serial_ascii], [ascii], [monitor_name]) is the sanitized text of the
    last of the four slots that starts with three zero bytes, carries the tag
    of that key and has a usable text; the key is absent when there is no
    such slot. The record of [parse_edid] carries these entries unchanged. *)
Theorem text_descriptor_last_wins (host : Host) (pnpidcache : cache)
    (edid : pyval) (b : list byte) :
  database_loads host pnpidcache → normalize edid = Ok b → (128 ≤ length b)%nat →
  ∃ desc r,
    parse_edid_descriptor_blocks b = Ok desc
    ∧ fst (parse_edid host edid pnpidcache) = Ok r
    ∧ ∀ key, key ∈ text_keys →
        desc !! key = PyStr <$> last (omap (slot_entry b key) BLOCKS)
        ∧ r !! key = desc !! key.
Proof.
  intros Hdb Hnorm Hlen.
  destruct (parse_edid_eq host pnpidcache edid b Hdb Hnorm Hlen)
    as (m & desc & _ & Hdesc & ->).
  exists desc. eexists. split; [exact Hdesc|]. split; [reflexivity|].
  intros key Hkey. split.
  - pose proof (descriptor_blocks_eq b Hlen) as Heq. rewrite Hdesc in Heq.
    assert (∀ x y : record, Ok x = Ok y → x = y) as Hinj by (by intros ?? [=]).
    rewrite (Hinj _ _ Heq), fold_slots_lookup. by destruct (last _).
  - rewrite !lookup_union.
    assert (extension_record b !! key = None ∧ chroma_record b !! key = None
            ∧ basic_record b !! key = None
            ∧ header_record host b m !! key = None) as (-> & -> & -> & ->).
    { unfold text_keys in Hkey.
      apply elem_of_cons in Hkey as [->|Hkey];
        [|apply elem_of_cons in Hkey as [->|Hkey];
          [|apply elem_of_cons in Hkey as [->|Hkey];
            [|by apply elem_of_nil in Hkey]]];
        unfold extension_record, chroma_record, basic_record, header_record;
        destruct (truthy m);
        repeat split; rewrite !lookup_insert_ne by done; apply lookup_empty. }
    by destruct (desc !! key).
Qed.

Lemma text_descriptor_last_wins_witness :
  ∃ desc r,
    parse_edid_descriptor_blocks two_names_edid = Ok desc
    ∧ fst (parse_edid bare_host (PyBytes two_names_edid) ∅) = Ok r
    ∧ r !! "monitor_name" = Some (PyStr (str "NEW")).
Proof.
  destruct (text_descriptor_last_wins bare_host ∅ (PyBytes two_names_edid)
              two_names_edid bare_host_loads) as (desc & r & Hdesc & Hr & Hall).
  - apply normalize_standard. apply list_elem_of_here.
  - vm_compute. lia.
  - exists desc, r. split; [exact Hdesc|]. split; [exact Hr|].
    destruct (Hall "monitor_name") as [Hd ->].
    { unfold text_keys. do 2 apply list_elem_of_further. apply list_elem_of_here. }
    rewrite Hd. vm_compute. reflexivity.
Defined.

(** ** Encoding repair *)

Lemma utf8_decode_latin1_byte (b : byte) (rest : list byte) :
  utf8_decode (utf8_of_latin1_byte b ++ rest)
  = bind (utf8_decode rest) (λ s, Ok (Byte.to_N b :: s)).
Proof. destruct b; reflexivity. Qed.

Lemma utf8_decode_of_latin1 (b : list byte) :
  utf8_decode (utf8_of_latin1 b) = Ok (latin1_decode b).
Proof.
  induction b as [|x b IH]; [done|].
  unfold utf8_of_latin1. cbn [map concat]. fold (utf8_of_latin1 b).
  by rewrite utf8_decode_latin1_byte, IH.
Qed.

Lemma latin1_encode_decode (b : list byte) :
  latin1_encode (latin1_decode b) = Ok b.
Proof.
  induction b as [|x b IH]; [done|].
  cbn [latin1_decode map latin1_encode]. rewrite Byte.of_to_N.
  fold (latin1_decode b). by rewrite IH.
Qed.

Lemma utf8_of_latin1_byte_marker (x : byte) :
  utf8_of_latin1_byte x = [x] ∨ xc2 ∈ utf8_of_latin1_byte x
  ∨ xc3 ∈ utf8_of_latin1_byte x.
Proof.
  destruct x; first [by left | right; left; apply list_elem_of_here
                    | right; right; apply list_elem_of_here].
Qed.

Lemma utf8_of_latin1_plain (b : list byte) :
  xc2 ∉ utf8_of_latin1 b → xc3 ∉ utf8_of_latin1 b → utf8_of_latin1 b = b.
Proof.
  induction b as [|x b IH]; [done|].
  unfold utf8_of_latin1. cbn [map concat]. fold (utf8_of_latin1 b).
  intros H2 H3. rewrite elem_of_app in H2, H3.
  destruct (utf8_of_latin1_byte_marker x) as [Hx|[Hx|Hx]].
  - rewrite Hx. cbn [app]. f_equal. apply IH; intros ?; [apply H2|apply H3]; by right.
  - destruct H2. by left.
  - destruct H3. by left.
Qed.

Lemma fix_edid_encoding_of_latin1 (b : list byte) :
  fix_edid_encoding (PyBytes (utf8_of_latin1 b)) = Ok (PyBytes b).
Proof.
  cbn [fix_edid_encoding].
  destruct (bool_decide (xc2 ∈ utf8_of_latin1 b)) eqn:H2;
    [|destruct (bool_decide (xc3 ∈ utf8_of_latin1 b)) eqn:H3]; cbn [orb].
  - by rewrite utf8_decode_of_latin1; cbn [bind]; rewrite latin1_encode_decode.
  - by rewrite utf8_decode_of_latin1; cbn [bind]; rewrite latin1_encode_decode.
  - apply bool_decide_eq_false in H2, H3. by rewrite utf8_of_latin1_plain.
Qed.

(** X22. [fix_edid_encoding] undoes the Latin-1-to-UTF-8 corruption: applied
    to the UTF-8 form of any buffer it returns that buffer. Hence [parse_edid]
    decodes the original of a corrupted buffer, unless the corrupted buffer
    happens to have 128, 256 or 384 bytes, in which case it is decoded as it
    is. *)
Theorem fix_edid_encoding_repairs (b : list byte) :
  fix_edid_encoding (PyBytes (utf8_of_latin1 b)) = Ok (PyBytes b)
  ∧ (Z.of_nat (length (utf8_of_latin1 b)) ∉ [128; 256; 384] →
     normalize (PyBytes (utf8_of_latin1 b)) = Ok b)
  ∧ (Z.of_nat (length (utf8_of_latin1 b)) ∈ [128; 256; 384] →
     normalize (PyBytes (utf8_of_latin1 b)) = Ok (utf8_of_latin1 b)).
Proof.
  split; [apply fix_edid_encoding_of_latin1|]. split.
  - intros Hlen. unfold normalize. cbn [py_len bind].
    rewrite bool_decide_eq_false_2 by done. cbn [negb].
    by rewrite fix_edid_encoding_of_latin1.
  - apply normalize_standard.
Qed.

Lemma fix_edid_encoding_repairs_witness :
  normalize (PyBytes (utf8_of_latin1 gamma_ff_edid)) = Ok gamma_ff_edid.
Proof.
  apply (proj1 (proj2 (fix_edid_encoding_repairs gamma_ff_edid))).
  vm_compute. intros H. repeat (apply elem_of_cons in H as [H|H]; [discriminate H|]).
  by apply elem_of_nil in H.
Defined.

Lemma latin1_encode_returns (s : pystr) :
  returns (latin1_encode s) ↔ Forall (λ c, (c ≤ 255)%N) s.
Proof.
  induction s as [|c s IH].
  - split; [done|by eexists].
  - cbn [latin1_encode]. rewrite Forall_cons.
    destruct (Byte.of_N c) as [x|] eqn:Hc.
    + apply Byte.to_of_N in Hc. pose proof (Byte.to_N_bounded x).
      destruct (latin1_encode s) as [l|e].
      * split; [intros _|by eexists]. split; [lia|]. apply IH. by eexists.
      * split; [by intros [? ?]|]. intros [_ Hs]. apply IH in Hs as [? ?]. done.
    + apply Byte.of_N_None_iff in Hc. split; [by intros [? ?]|].
      intros [? _]. lia.
Qed.

(** X23. A [str] argument: when its length is none of 128, 256 and 384 the
    membership test of the repair is applied to it and raises [TypeError];
    when its length is one of them it is encoded as Latin-1, which returns
    exactly when no character is above U+00FF and raises
    [UnicodeEncodeError] otherwise. *)
Theorem normalize_str (s : pystr) :
  (Z.of_nat (length s) ∉ [128; 256; 384] → normalize (PyStr s) = Raise TypeError)
  ∧ (Z.of_nat (length s) ∈ [128; 256; 384] →
     normalize (PyStr s) = latin1_encode s
     ∧ (returns (latin1_encode s) ↔ Forall (λ c, (c ≤ 255)%N) s)
     ∧ (¬ returns (latin1_encode s) → latin1_encode s = Raise UnicodeEncodeError)).
Proof.
  split.
  - intros Hlen. unfold normalize. cbn [py_len bind].
    by rewrite bool_decide_eq_false_2.
  - intros Hlen. split; [|split; [apply latin1_encode_returns|]].
    + unfold normalize. cbn [py_len bind].
      rewrite bool_decide_eq_true_2 by done. cbn [negb bind ensure_bytes].
      by destruct (latin1_encode s).
    + clear Hlen. induction s as [|c s IH]; [intros []; by eexists|].
      cbn [latin1_encode]. destruct (Byte.of_N c); [|done].
      destruct (latin1_encode s) as [l|e].
      * intros []. by eexists.
      * intros _. rewrite IH; [done|]. by intros [? ?].
Qed.

Lemma normalize_str_witness :
  normalize (PyStr (str "EDID")) = Raise TypeError.
Proof.
  apply (proj1 (normalize_str (str "EDID"))).
  vm_compute. intros H. repeat (apply elem_of_cons in H as [H|H]; [discriminate H|]).
  by apply elem_of_nil in H.
Defined.

(** ** Fraction codec, continued *)

Lemma ten_bit_split_table : forallb ten_bit_split_check fraction_inputs = true.
Proof. vm_compute. reflexivity. Qed.

Lemma ten_bit_split (high low : Z) :
  0 ≤ high < 256 → 0 ≤ low < 4 →
  Z.shiftr (Z.lor (Z.shiftl high 2) low) 2 = high
  ∧ Z.land (Z.lor (Z.shiftl high 2) low) 3 = low.
Proof.
  intros Hh Hl.
  pose proof (proj1 (forallb_forall _ _) ten_bit_split_table (high, low)
                (fraction_inputs_complete high low Hh Hl)) as Hc.
  unfold ten_bit_split_check in Hc. cbn [fst snd] in Hc.
  apply andb_prop in Hc as [H1 H2]. by apply Z.eqb_eq in H1, H2.
Qed.

Lemma decode_fraction_inj (high low high' low' : Z) :
  0 ≤ high < 256 → 0 ≤ low < 4 → 0 ≤ high' < 256 → 0 ≤ low' < 4 →
  edid_decode_fraction high low = edid_decode_fraction high' low' →
  high = high' ∧ low = low'.
Proof.
  intros Hh Hl Hh' Hl' Heq.
  destruct (fraction_exact high low Hh Hl) as (q & Hq & _ & Hdiv & _).
  destruct (fraction_exact high' low' Hh' Hl') as (q' & Hq' & _ & Hdiv' & _).
  cbv zeta in *. rewrite Heq, Hq' in Hq. injection Hq as <-.
  rewrite Hdiv' in Hdiv. unfold Qeq in Hdiv. cbn [Qnum Qden] in Hdiv.
  assert (Z.lor (Z.shiftl high 2) low = Z.lor (Z.shiftl high' 2) low') as Hv by lia.
  destruct (ten_bit_split high low Hh Hl) as [H1 H2].
  destruct (ten_bit_split high' low' Hh' Hl') as [H1' H2'].
  rewrite Hv in H1, H2. split; congruence.
Qed.

(** X24. Decoding loses nothing: inputs that differ in the high byte or in
    the low bits decode to different fractions. *)
Theorem edid_decode_fraction_injective (high low high' low' : Z) :
  0 ≤ high < 256 → 0 ≤ low < 4 → 0 ≤ high' < 256 → 0 ≤ low' < 4 →
  (high, low) ≠ (high', low') →
  edid_decode_fraction high low ≠ edid_decode_fraction high' low'.
Proof.
  intros Hh Hl Hh' Hl' Hne Heq. apply Hne.
  destruct (decode_fraction_inj high low high' low' Hh Hl Hh' Hl' Heq) as [-> ->].
  reflexivity.
Qed.

Lemma edid_decode_fraction_injective_witness :
  edid_decode_fraction 0x80 1 ≠ edid_decode_fraction 0x80 2.
Proof.
  apply (edid_decode_fraction_injective 0x80 1 0x80 2); try lia.
  intros [=].
Defined.

(** ** Color-point parser *)

Lemma point_guard_table : forallb point_guard_check (seqZ 0 256) = true.
Proof. vm_compute. reflexivity. Qed.

Lemma point_guard (z : Z) :
  0 ≤ z < 256 →
  PrimFloat.ltb (PrimFloat.div (float_of_int (Z.of_nat 5)) (float_of_int 5))
    (float_of_int z) = (1 <? z)
  ∧ PrimFloat.ltb (PrimFloat.div (float_of_int (Z.of_nat 10)) (float_of_int 5))
      (float_of_int z) = (2 <? z).
Proof.
  intros Hz.
  assert (In z (seqZ 0 256)) as Hin by (apply list_elem_of_In, elem_of_seqZ; lia).
  pose proof (proj1 (forallb_forall _ _) point_guard_table z Hin) as Hc.
  unfold point_guard_check in Hc. apply andb_prop in Hc as [H1 H2].
  by apply Bool.eqb_prop in H1, H2.
Qed.

Lemma color_point_step_eq (block : list byte) (result : record) (i : nat) :
  i = 5%nat ∨ i = 10%nat → (i + 4 < length block)%nat →
  color_point_step block (Ok result) i = Ok (point_record block i result).
Proof.
  intros Hi Hlen. unfold color_point_step, point_record, point_used, point_index.
  cbn [bind]. rewrite !getitem_lt by lia. cbn [bind py_ne py_eq negb].
  destruct (point_guard (byte_at block i) (byte_at_range _ _)) as [H5 H10].
  destruct Hi as [-> | ->].
  - rewrite H5. change (Z.of_nat 5 / 5) with 1. by destruct (1 <? _).
  - rewrite H10. change (Z.of_nat 10 / 5) with 2. by destruct (2 <? _).
Qed.

Lemma parse_color_point_data_eq (block : list byte) :
  (15 ≤ length block)%nat →
  parse_color_point_data block
  = Ok (point_record block 10 (point_record block 5 ∅)).
Proof.
  intros Hlen. unfold parse_color_point_data. cbn [fold_left].
  rewrite color_point_step_eq by (auto; lia).
  by rewrite color_point_step_eq by (auto; lia).
Qed.

Lemma set_default_lookup (key : string) (v : pyval) (m : record) (k : string) :
  set_default key v m !! k
  = if bool_decide (k = key)
    then Some (default v (m !! key)) else m !! k.
Proof.
  unfold set_default. case_bool_decide as Hk.
  - subst k. destruct (m !! key) eqn:Hm; [done|]. by rewrite lookup_insert_eq.
  - destruct (m !! key); [done|]. by rewrite lookup_insert_ne.
Qed.

Ltac key_ne := cbn [String.append]; discriminate.

(** The three unindexed entries after one turn: an entry already present
    stays, an absent one is set when the sub-record is used. *)
Lemma point_record_alias (block : list byte) (i : nat) (result : record) :
  let r := point_record block i result in
  let alias key v :=
    r !! key = match result !! key with
               | Some x => Some x
               | None => if point_used block i then Some v else None
               end in
  alias "white_x" (point_x block i) ∧ alias "white_y" (point_y block i)
  ∧ alias "gamma" (point_gamma block i).
Proof.
  cbv zeta. unfold point_record. destruct (point_used block i).
  - repeat split;
      repeat first
        [ rewrite set_default_lookup; cbn [bool_decide decide_rel]
        | rewrite lookup_insert_ne by key_ne ];
      rewrite ?bool_decide_eq_true_2 by done;
      rewrite ?bool_decide_eq_false_2 by done;
      repeat first
        [ rewrite set_default_lookup
        | rewrite lookup_insert_ne by key_ne ];
      rewrite ?bool_decide_eq_true_2 by done;
      rewrite ?bool_decide_eq_false_2 by done;
      by destruct (result !! _).
  - repeat split; by destruct (result !! _).
Qed.

Ltac indexed_key :=
  repeat first
    [ rewrite set_default_lookup, bool_decide_eq_false_2 by key_ne
    | rewrite lookup_insert_ne by key_ne ];
  by rewrite lookup_insert_eq.

(** X25. [parse_color_point_data] on a block of at least 15 bytes. The
    sub-record at slot offset 5 is used when its index byte exceeds 1, the one
    at offset 10 when its index byte exceeds 2; with neither the dict is
    empty. The unindexed [white_x], [white_y] and [gamma] are those of the
    first used sub-record, and a used sub-record at offset 10 sets its three
    indexed entries. [gamma] is always set for a used sub-record, a gamma
    byte [0xFF] included. *)
Theorem parse_color_point_data_points (block : list byte) :
  (15 ≤ length block)%nat →
  ∃ r, parse_color_point_data block = Ok r
    ∧ (point_used block 5 = true ↔ 1 < byte_at block 5)
    ∧ (point_used block 10 = true ↔ 2 < byte_at block 10)
    ∧ (point_used block 5 = false → point_used block 10 = false → r = ∅)
    ∧ (point_used block 5 = true →
       r !! "white_x" = Some (point_x block 5)
       ∧ r !! "white_y" = Some (point_y block 5)
       ∧ r !! "gamma" = Some (point_gamma block 5))
    ∧ (point_used block 5 = false → point_used block 10 = true →
       r !! "white_x" = Some (point_x block 10)
       ∧ r !! "white_y" = Some (point_y block 10)
       ∧ r !! "gamma" = Some (point_gamma block 10))
    ∧ (point_used block 10 = true →
       r !! ("white_x_" +:+ pretty (point_index block 10)) = Some (point_x block 10)
       ∧ r !! ("white_y_" +:+ pretty (point_index block 10)) = Some (point_y block 10)
       ∧ r !! ("gamma_" +:+ pretty (point_index block 10))
         = Some (point_gamma block 10)).
Proof.
  intros Hlen. eexists. split; [by apply parse_color_point_data_eq|].
  destruct (point_record_alias block 10 (point_record block 5 ∅))
    as (Hx10 & Hy10 & Hg10).
  destruct (point_record_alias block 5 ∅) as (Hx5 & Hy5 & Hg5).
  cbv zeta in *. rewrite lookup_empty in Hx5, Hy5, Hg5.
  rewrite Hx5 in Hx10. rewrite Hy5 in Hy10. rewrite Hg5 in Hg10.
  split; [apply Z.ltb_lt|]. split; [apply Z.ltb_lt|].
  split; [|split; [|split]].
  - intros H5 H10. unfold point_record. by rewrite H5, H10.
  - intros H5. rewrite H5 in *. done.
  - intros H5 H10. rewrite H5, H10 in *. done.
  - intros H10. unfold point_record at 1 3 5. rewrite H10.
    repeat split; indexed_key.
Qed.

Lemma parse_color_point_data_points_witness :
  ∃ r, parse_color_point_data color_point_slot = Ok r
    ∧ r !! "white_x" = Some (point_x color_point_slot 5)
    ∧ r !! "gamma" = Some (point_gamma color_point_slot 5).
Proof.
  destruct (parse_color_point_data_points color_point_slot)
    as (r & Hr & _ & _ & _ & Hfirst & _).
  - vm_compute. lia.
  - exists r. split; [exact Hr|].
    destruct Hfirst as (Hx & _ & Hg); [reflexivity|]. done.
Defined.

(** ** [argyll_RGB2XYZ.py] *)

Lemma clamp_unit_idempotent (v : float) : clamp_unit (clamp_unit v) = clamp_unit v.
Proof.
  unfold clamp_unit.
  destruct (PrimFloat.ltb v 0) eqn:H0; [reflexivity|].
  destruct (PrimFloat.ltb 1 v) eqn:H1; [reflexivity|].
  by rewrite H0, H1.
Qed.

Lemma colorant_value_clamp (math_pow : float → float → float) (v : float) :
  colorant_value math_pow (clamp_unit v) = colorant_value math_pow v.
Proof. unfold colorant_value. by rewrite clamp_unit_idempotent. Qed.

Lemma colorant_value_negative (math_pow : float → float → float) (v : float) :
  PrimFloat.ltb v 0 = true → colorant_value math_pow v = 0%float.
Proof.
  intros Hv. unfold colorant_value, clamp_unit. rewrite Hv. reflexivity.
Qed.

(** No float is both below 0.0 and above 1.0. *)
Lemma not_below_and_above (v : float) :
  PrimFloat.ltb v 0 = true → PrimFloat.ltb 1 v = true → False.
Proof.
  rewrite !FloatAxioms.ltb_spec.
  replace (Prim2SF 0) with (S754_zero false) by reflexivity.
  replace (Prim2SF 1) with (S754_finite false 4503599627370496 (-52))
    by reflexivity.
  destruct (Prim2SF v) as [s|s| |s m e]; try destruct s; cbn; discriminate.
Qed.

Lemma clamp_unit_below (v : float) :
  PrimFloat.ltb v 0 = true → clamp_unit v = clamp_unit 0.
Proof. intros Hv. unfold clamp_unit at 1. by rewrite Hv. Qed.

Lemma clamp_unit_above (v : float) :
  PrimFloat.ltb 1 v = true → clamp_unit v = clamp_unit 1.
Proof.
  intros Hv. unfold clamp_unit at 1.
  destruct (PrimFloat.ltb v 0) eqn:H0.
  - destruct (not_below_and_above v H0 Hv).
  - by rewrite Hv.
Qed.

(** [RGB2XYZ] depends on its arguments through their clamped values only. *)
Lemma RGB2XYZ_clamped (math_pow : float → float → float) (R G B R' G' B' : float) :
  clamp_unit R = clamp_unit R' → clamp_unit G = clamp_unit G' →
  clamp_unit B = clamp_unit B' →
  RGB2XYZ math_pow R G B = RGB2XYZ math_pow R' G' B'.
Proof.
  intros HR HG HB. unfold RGB2XYZ.
  cbn [fold_left at_index lookup list_lookup default]. unfold id.
  unfold colorant_value. by rewrite HR, HG, HB.
Qed.

(** X26. [RGB2XYZ] saturates, component by component: a component below 0.0
    gives the result of 0.0 in its place and a component above 1.0 the result
    of 1.0 in its place, so that the result is that of the components brought
    into [0.0, 1.0]; and when all three components are negative the result
    is the black glare point (0.01, 0.01, 0.01), whatever [math.pow]
    computes. *)
Theorem RGB2XYZ_saturates (math_pow : float → float → float) (R G B : float) :
  RGB2XYZ math_pow R G B
  = RGB2XYZ math_pow (clamp_unit R) (clamp_unit G) (clamp_unit B)
  ∧ (PrimFloat.ltb R 0 = true →
     RGB2XYZ math_pow R G B = RGB2XYZ math_pow 0 G B)
  ∧ (PrimFloat.ltb 1 R = true →
     RGB2XYZ math_pow R G B = RGB2XYZ math_pow 1 G B)
  ∧ (PrimFloat.ltb G 0 = true →
     RGB2XYZ math_pow R G B = RGB2XYZ math_pow R 0 B)
  ∧ (PrimFloat.ltb 1 G = true →
     RGB2XYZ math_pow R G B = RGB2XYZ math_pow R 1 B)
  ∧ (PrimFloat.ltb B 0 = true →
     RGB2XYZ math_pow R G B = RGB2XYZ math_pow R G 0)
  ∧ (PrimFloat.ltb 1 B = true →
     RGB2XYZ math_pow R G B = RGB2XYZ math_pow R G 1)
  ∧ (PrimFloat.ltb R 0 = true → PrimFloat.ltb G 0 = true →
     PrimFloat.ltb B 0 = true →
     RGB2XYZ math_pow R G B = icx_ink_row "K").
Proof.
  split; [apply RGB2XYZ_clamped; by rewrite clamp_unit_idempotent|].
  repeat (split;
          [intros Hv; apply RGB2XYZ_clamped;
           first [reflexivity | by apply clamp_unit_below
                 | by apply clamp_unit_above]|]).
  intros HR HG HB. unfold RGB2XYZ.
  cbn [fold_left at_index lookup list_lookup default]. unfold id.
  rewrite !colorant_value_negative by done. vm_compute. reflexivity.
Qed.

Lemma RGB2XYZ_saturates_witness :
  RGB2XYZ (λ x _, x) 2%float 0.5%float (-1)%float
  = RGB2XYZ (λ x _, x) 1%float 0.5%float (-1)%float
  ∧ RGB2XYZ (λ x _, x) (-1)%float (-0.5)%float (-2)%float = icx_ink_row "K".
Proof.
  pose proof (RGB2XYZ_saturates (λ x _, x) 2%float 0.5%float (-1)%float)
    as (_ & _ & Habove & _).
  pose proof (RGB2XYZ_saturates (λ x _, x) (-1)%float (-0.5)%float (-2)%float)
    as (_ & _ & _ & _ & _ & _ & _ & Hblack).
  split; [apply Habove; reflexivity|apply Hblack; reflexivity].
Defined.

(** ** Manufacturer database, continued *)

Lemma parse_pnpid_line_Ok (line : pystr) : returns (parse_pnpid_line line).
Proof.
  unfold parse_pnpid_line.
  destruct (split_whitespace_once _) as [|id [|name [|x l]]]; by eexists.
Qed.

(** X27. Parsing a file of the [pnp.ids] format never raises; parsing a file
    of the hwdb format raises nothing but [IndexError]. *)
Theorem parse_pnpid_file_errors (lines : list pystr) (path : pystr)
    (pnpidcache : cache) :
  (endswith path (str "hwdb") = false →
   fst (parse_pnpid_file lines path pnpidcache) = Ok tt)
  ∧ (∀ e, fst (parse_pnpid_file lines path pnpidcache) = Raise e →
          e = IndexError ∧ endswith path (str "hwdb") = true).
Proof.
  split.
  - intros Hpath. revert pnpidcache.
    induction lines as [|line rest IH]; intros pnpidcache; [done|].
    cbn [parse_pnpid_file]. rewrite Hpath.
    destruct (parse_pnpid_line_Ok line) as [[id name] ->]. apply IH.
  - revert pnpidcache.
    induction lines as [|line rest IH]; intros pnpidcache e; [done|].
    cbn [parse_pnpid_file]. destruct (endswith path (str "hwdb")) eqn:Hpath.
    + destruct (parse_hwdb_line line) as [[id name]|e'] eqn:Hline.
      * intros He. by destruct (IH _ _ He).
      * cbn [fst]. intros [= ->]. split; [|done].
        by apply hwdb_line_raises in Hline as [-> _].
    + destruct (parse_pnpid_line_Ok line) as [[id name] ->].
      intros He. destruct (IH _ _ He) as [_ ?]. congruence.
Qed.

Lemma parse_pnpid_file_errors_witness :
  fst (parse_pnpid_file pnp_ids_first pnp_ids_path ∅) = Ok tt.
Proof.
  apply (proj1 (parse_pnpid_file_errors pnp_ids_first pnp_ids_path ∅)).
  vm_compute. reflexivity.
Defined.

Lemma cache_add_well_formed (path line : pystr) (id name : option pystr)
    (pnpidcache : cache) :
  (if endswith path (str "hwdb") then parse_hwdb_line line
   else parse_pnpid_line line) = Ok (id, name) →
  map_Forall well_formed_entry pnpidcache →
  map_Forall well_formed_entry (cache_add id name pnpidcache).
Proof.
  intros Hline Hall. unfold cache_add.
  destruct id as [i|], name as [n|]; try done.
  destruct (truthy (Some i) && truthy (Some n) && negb _); [|done].
  apply map_Forall_insert_2; [|done].
  destruct (endswith path (str "hwdb")).
  - by destruct (parse_hwdb_line_one_part line _ _ Hline).
  - destruct (pnpid_line_shape line) as [Hnone|Hsome]; [congruence|].
    destruct Hsome as (id' & name' & ws0 & ws & Heq & _ & Hid & Hname & _ & Hns & _).
    rewrite Heq in Hline. injection Hline as <- <-. by repeat split.
Qed.

(** X28. The cache stays well formed: when every entry has a non-empty code
    without whitespace and a non-empty name, so has every entry after a file
    is parsed, whether the parse ends or raises. *)
Theorem parse_pnpid_file_well_formed (lines : list pystr) (path : pystr)
    (pnpidcache : cache) :
  map_Forall well_formed_entry pnpidcache →
  map_Forall well_formed_entry (snd (parse_pnpid_file lines path pnpidcache)).
Proof.
  revert pnpidcache. induction lines as [|line rest IH]; intros pnpidcache Hall;
    [done|].
  cbn [parse_pnpid_file].
  destruct (if endswith path (str "hwdb") then parse_hwdb_line line
            else parse_pnpid_line line) as [[id name]|e] eqn:Hline; [|done].
  by apply IH, (cache_add_well_formed path line).
Qed.

Lemma parse_pnpid_file_well_formed_witness :
  map_Forall well_formed_entry (snd (parse_pnpid_file pnp_ids_first pnp_ids_path ∅)).
Proof.
  apply (parse_pnpid_file_well_formed pnp_ids_first pnp_ids_path ∅).
  apply map_Forall_empty.
Defined.
